(** * inventor-ai: the eBay client, the retail search agent and the search cache

    A shallow embedding of
    - [src/lib/search/ebay.ts]: the OAuth token cache ([getAccessToken]),
      [searchEbay], [searchSimilarProducts], [isEbayConfigured];
    - the retail search agent ([ebayProductToFinding], [runRetailSearchAgent]);
    - the [search_cache] table and [cleanup_expired_cache] of the SQL schema,
      with the cache operations of the spec ([put], [get], [invalidate]) on
      top of the table's constraints.

    Conventions.
    - A JS string is a sequence of code units below 256 (Latin-1), held in a
      Rocq [string].
    - A JS number is [NaN], an infinity, or the rational that a finite double
      denotes.  The literals of the source ([0.7], [0.3], ...) stand for the
      nearest double; they are only ever compared with [0] and [1] and with
      each other, and rounding to the nearest double is monotone.
    - Asynchronous code is run to completion: an [await] is a bind of the
      monad [M].  A rejected promise is a thrown value.
    - The outside world (environment variables, the clock, the replies of the
      HTTP endpoints and of the language model) is a parameter, [World]; the
      module-level variable [cachedToken] lives in the [Store], together with a
      log of the external requests that were issued. *)

From Stdlib Require Import ZArith QArith Lqa String Ascii List Sorted Lia.
From stdpp Require Import base option list gmap strings pretty.

Set Warnings "-register-all".

Local Open Scope string_scope.
Local Open Scope Z_scope.

(** ** JavaScript values and completions *)

Module JS.

(** A JS number. *)
Inductive number : Type :=
  | NaN
  | Inf (negative : bool)
  | Fin (q : Q).

(** Binary [-] on numbers. *)
Definition minus (x y : number) : number :=
  match x, y with
  | NaN, _ | _, NaN => NaN
  | Inf a, Inf b => if Bool.eqb a b then NaN else Inf a
  | Inf a, Fin _ => Inf a
  | Fin _, Inf b => Inf (negb b)
  | Fin p, Fin q => Fin (p - q)
  end.

(** [v > 0], as [Array.prototype.sort] asks of a comparator's result
    (a [NaN] result counts as [+0]). *)
Definition is_positive (v : number) : bool :=
  match v with
  | NaN => false
  | Inf negative => negb negative
  | Fin q => negb (Qle_bool q 0)
  end.

(** A value as [JSON.parse] builds it, or [undefined]. *)
Inductive jsval : Type :=
  | Undefined
  | Null
  | Boolean (b : bool)
  | Num (n : number)
  | Str (s : string)
  | Arr (elements : list jsval)
  | Obj (properties : list (string * jsval)).

(** ToBoolean. *)
Definition truthy (v : jsval) : bool :=
  match v with
  | Undefined | Null => false
  | Boolean b => b
  | Num NaN => false
  | Num (Inf _) => true
  | Num (Fin q) => negb (Qeq_bool q 0)
  | Str s => negb (String.eqb s "")
  | Arr _ | Obj _ => true
  end.

(** A thrown value: an [Error] instance with its message, or anything else. *)
Inductive thrown : Type :=
  | Error (message : string)
  | NotAnError.

(** How an evaluation ends. *)
Inductive completion (A : Type) : Type :=
  | Return (a : A)
  | Throw (e : thrown).
Arguments Return {A} a.
Arguments Throw {A} e.

#[export] Instance completion_ret : MRet completion := @Return.

#[export] Instance completion_bind : MBind completion := fun A B k c =>
  match c with
  | Return a => k a
  | Throw e => Throw e
  end.

(** Own data property of an object built by [JSON.parse]; the last of
    duplicate keys wins. *)
Fixpoint own (properties : list (string * jsval)) (name : string) : option jsval :=
  match properties with
  | [] => None
  | (k, v) :: rest =>
      match own rest name with
      | Some v' => Some v'
      | None => if String.eqb k name then Some v else None
      end
  end.

(** [v.name] for the data property names this program reads
    ([is_novel], [confidence], [item_id], ...): none of them is defined on
    [Object.prototype], [Array.prototype], or on the wrappers of primitives. *)
Definition get_property (v : jsval) (name : string) : completion jsval :=
  match v with
  | Undefined | Null => Throw (Error "Cannot read properties of null or undefined")
  | Obj properties => Return (default Undefined (own properties name))
  | _ => Return Undefined
  end.

(** [a || b]. *)
Definition logical_or (a b : jsval) : jsval := if truthy a then a else b.

(** *** Coercion to numbers, and [Array.prototype.sort] *)

Section Coercion.

(** The operation StringToNumber of the language, which reads a numeric
    literal off a string ([NaN] when there is none). *)
Variable StringToNumber : string -> number.

Definition TypeError : thrown := Error "Cannot convert object to primitive value".

(** ToString throws on [v]: an object that carries a [toString] key of its
    own (which, out of [JSON.parse], is not callable), or an array with such
    an element. *)
Fixpoint unprintable (v : jsval) : bool :=
  match v with
  | Obj properties => bool_decide (is_Some (own properties "toString"))
  | Arr elements => existsb unprintable elements
  | _ => false
  end.

(** ToNumber.  An object goes through [valueOf] and [toString]; an array
    through [join]: no element gives the empty string, one element gives its
    own string, more give a string with a comma in it. *)
Fixpoint ToNumber (v : jsval) : completion number :=
  match v with
  | Undefined => Return NaN
  | Null => Return (Fin 0)
  | Boolean b => Return (Fin (if b then 1 else 0))
  | Num n => Return n
  | Str s => Return (StringToNumber s)
  | Obj _ => if unprintable v then Throw TypeError else Return NaN
  | Arr [] => Return (Fin 0)
  | Arr [x] =>
      match x with
      | Undefined | Null => Return (Fin 0)
      | Boolean _ => Return NaN
      | Num n => Return n
      | Str s => Return (StringToNumber s)
      | Obj _ => if unprintable x then Throw TypeError else Return NaN
      | Arr _ => ToNumber x
      end
  | Arr (_ :: _ :: _) => if unprintable v then Throw TypeError else Return NaN
  end.

End Coercion.

(** [array.sort(compareFn)].  The language asks for a stable sort; with a
    consistent comparator the result does not depend on the algorithm, and
    insertion is the one written here.  An element goes behind those that
    [compareFn] puts strictly before it. *)
Section Sort.

Context {A : Type} (compareFn : A -> A -> completion number).

Fixpoint insert_sorted (x : A) (sorted : list A) : completion (list A) :=
  match sorted with
  | [] => Return [x]
  | y :: rest =>
      v ← compareFn x y;
      if is_positive v then rest' ← insert_sorted x rest; Return (y :: rest')
      else Return (x :: y :: rest)
  end.

Fixpoint Array_sort (l : list A) : completion (list A) :=
  match l with
  | [] => Return []
  | x :: rest => sorted ← Array_sort rest; insert_sorted x sorted
  end.

End Sort.

End JS.

Import JS.

(** ** The platform: HTTP responses, the world, the store, the monad *)

(** A [Response] of [fetch]: reading the body may fail. *)
Record Response (D : Type) : Type := {
  status : Z;
  text : completion string;
  json : completion D;
}.
Arguments status {D} r.
Arguments text {D} r.
Arguments json {D} r.

(** [response.ok]: the status is in the range 200..299. *)
Definition ok {D} (response : Response D) : bool :=
  (200 <=? status response) && (status response <=? 299).

(** What the OAuth token endpoint returns on success. *)
Record TokenData : Type := {
  access_token : string;
  expires_in : Z;   (* seconds *)
}.

(** The item summaries of the Browse API: [EbayProduct] and
    [EbaySearchResponse]. *)
Module Browse.

Record Price : Type := { value : string; currency : string }.
Record Image : Type := { imageUrl : string }.
Record Seller : Type := {
  username : string;
  feedbackPercentage : string;
  feedbackScore : Z;
}.
Record Category : Type := { categoryId : string; categoryName : string }.
Record ItemLocation : Type := {
  city : string;
  stateOrProvince : string;
  country : string;
}.

Record EbayProduct : Type := {
  itemId : string;
  title : string;
  itemWebUrl : string;
  price : option Price;   (* the agent tests [product.price] for presence *)
  image : option Image;
  additionalImages : option (list Image);
  condition : string;
  seller : option Seller;
  categories : option (list Category);
  itemLocation : option ItemLocation;
}.

Record EbaySearchResponse : Type := {
  href : string;
  resp_total : Z;
  next : option string;
  resp_limit : Z;
  resp_offset : Z;
  itemSummaries : option (list EbayProduct);
}.

End Browse.

(** [EbaySearchResult]. *)
Record EbaySearchResult : Type := {
  success : bool;
  products : list Browse.EbayProduct;
  total : Z;
  searchQuery : string;
  error : option string;
}.

(** The first content block of a reply of the language model.  Of a text
    block only what the agent makes of it is kept: the outcome of
    [JSON.parse] on the trimmed text, after the code fence, if there is
    one, has been stripped.  The text is used for nothing else. *)
Inductive ContentBlock : Type :=
  | TextBlock (parsed : completion jsval)
  | OtherBlock.

(** Modelled from the spec: [NoveltyCheckRequest] is declared in [./types],
    which is not among the sources.  The fields are those of the agent
    invocation boundary of the spec, the ones the agent reads. *)
Module Request.
Record NoveltyCheckRequest : Type := {
  invention_name : string;
  description : string;
  problem_statement : option string;
  target_audience : option string;
  key_features : option (list string);
}.
End Request.
Import Request (NoveltyCheckRequest).

(** A request that leaves the process.  The prompt sent to the language
    model is made of fixed text, of the fields of the invention and of the
    products listed: the request for an analysis keeps these two. *)
Inductive outgoing : Type :=
  | TokenRequest (clientId clientSecret : string)
  | SearchRequest (accessToken : string) (params : list (string * string))
  | AnalysisRequest (invention : NoveltyCheckRequest) (listed : list Browse.EbayProduct).

Record World : Type := {
  env : gmap string string;                              (* process.env *)
  clock : Z;                                             (* Date.now(), ms *)
  token_endpoint : completion (Response TokenData);      (* POST identity/v1/oauth2/token *)
  search_endpoint : completion (Response Browse.EbaySearchResponse);  (* GET item_summary/search *)
  messages_create : completion (option ContentBlock);    (* response.content[0] *)
  new_Date : Z;                                          (* new Date() *)
}.

(** [cachedToken], and the log of requests. *)
Record Token : Type := { token : string; expiresAt : Z }.

Record Store : Type := {
  cachedToken : option Token;
  issued : list outgoing;
}.

Definition M (A : Type) : Type := World -> Store -> completion A * Store.

#[export] Instance M_ret : MRet M := fun A a _ s => (Return a, s).

#[export] Instance M_bind : MBind M := fun A B k m w s =>
  match m w s with
  | (Return a, s') => k a w s'
  | (Throw e, s') => (Throw e, s')
  end.

Definition throw {A} (e : thrown) : M A := fun _ s => (Throw e, s).

(** [try { body } catch (error) { handler }]: the handler runs in the store
    the body left behind. *)
Definition try_catch {A} (body : M A) (handler : thrown -> M A) : M A := fun w s =>
  match body w s with
  | (Return a, s') => (Return a, s')
  | (Throw e, s') => handler e w s'
  end.

(** [await p] of a promise that is settled already. *)
Definition await {A} (p : completion A) : M A := fun _ s => (p, s).

Definition ask {A} (f : World -> A) : M A := fun w s => (Return (f w), s).

Definition read_cachedToken : M (option Token) := fun _ s => (Return (cachedToken s), s).

Definition write_cachedToken (t : option Token) : M unit := fun _ s =>
  (Return tt, {| cachedToken := t; issued := issued s |}).

(** An external call: log the request, hand back the world's reply. *)
Definition external {A} (r : outgoing) (reply : World -> completion A) : M A := fun w s =>
  (reply w, {| cachedToken := cachedToken s; issued := (issued s ++ [r])%list |}).

(** Truthiness of an optional string ([process.env.NAME], [options.filter]):
    there, and not empty. *)
Definition truthy_string (v : option string) : bool :=
  match v with
  | Some s => negb (String.eqb s "")
  | None => false
  end.

(** ** Strings *)

Module Text.

Definition code (c : ascii) : nat := nat_of_ascii c.

(** [String.prototype.toLowerCase] on code units below 256. *)
Definition lower (c : ascii) : ascii :=
  let n := code c in
  if ((65 <=? n) && (n <=? 90))%nat then ascii_of_nat (n + 32)
  else if ((192 <=? n) && (n <=? 222) && negb (n =? 215))%nat then ascii_of_nat (n + 32)
  else c.

Fixpoint toLowerCase (s : string) : string :=
  match s with
  | EmptyString => EmptyString
  | String c rest => String (lower c) (toLowerCase rest)
  end.

(** The class [\s] of regular expressions, below 256. *)
Definition is_space (c : ascii) : bool :=
  let n := code c in
  ((9 <=? n) && (n <=? 13) || (n =? 32) || (n =? 160))%nat.

(** [s.split(/\s+/)]: the pieces between maximal runs of white space; a run
    at either end leaves an empty piece there. *)
Fixpoint split_spaces_from (s : string) (piece : string) (in_run : bool) : list string :=
  match s with
  | EmptyString => [piece]
  | String c rest =>
      if is_space c then
        if in_run then split_spaces_from rest piece true
        else piece :: split_spaces_from rest EmptyString true
      else split_spaces_from rest (piece +:+ String c EmptyString) false
  end.

Definition split_spaces (s : string) : list string := split_spaces_from s EmptyString false.

(** [words.join(sep)]. *)
Fixpoint join (sep : string) (words : list string) : string :=
  match words with
  | [] => ""
  | [w] => w
  | w :: rest => w +:+ sep +:+ join sep rest
  end.

(** [[...new Set(words)]]: the first occurrence of each word, in order. *)
Fixpoint unique_from (seen : list string) (words : list string) : list string :=
  match words with
  | [] => []
  | w :: rest =>
      if bool_decide (w ∈ seen) then unique_from seen rest
      else w :: unique_from (w :: seen) rest
  end.

Definition unique (words : list string) : list string := unique_from [] words.

(** [s.replace(/^, /, '')]. *)
Definition drop_leading (p s : string) : string :=
  if String.prefix p s then String.substring (String.length p) (String.length s - String.length p) s
  else s.

(** [s.replace(/, $/, '')]. *)
Definition drop_trailing (p s : string) : string :=
  let n := String.length s in
  let k := String.length p in
  if ((k <=? n)%nat && String.eqb (String.substring (n - k) k s) p)%bool
  then String.substring 0 (n - k) s
  else s.

End Text.

(** ** [src/lib/search/ebay.ts] *)

Module Ebay.

Import Browse.

Definition REFRESH_BUFFER : Z := 5 * 60 * 1000.

Definition getAccessToken : M string :=
  clientId ← ask (fun w => env w !! "EBAY_CLIENT_ID");
  clientSecret ← ask (fun w => env w !! "EBAY_CLIENT_SECRET");
  if negb (truthy_string clientId) || negb (truthy_string clientSecret) then
    throw (Error ("eBay API credentials not configured. Please set EBAY_CLIENT_ID and EBAY_CLIENT_SECRET environment variables. "
                  +:+ "Get your credentials at: https://developer.ebay.com/my/keys"))
  else
    now ← ask clock;
    cached ← read_cachedToken;
    let fetch_token : M string :=
      response ← external (TokenRequest (default "" clientId) (default "" clientSecret))
                          token_endpoint;
      if negb (ok response) then
        errorText ← await (text response);
        throw (Error ("eBay OAuth failed (" +:+ pretty (status response) +:+ "): " +:+ errorText))
      else
        data ← await (json response);
        (* Cache the token *)
        write_cachedToken (Some {| token := access_token data;
                                   expiresAt := now + expires_in data * 1000 |});;
        mret (access_token data) in
    (* Return cached token if still valid (with 5 minute buffer) *)
    match cached with
    | Some t => if expiresAt t >? now + REFRESH_BUFFER then mret (token t) else fetch_token
    | None => fetch_token
    end.

(** The [options] of [searchEbay]. *)
Record SearchOptions : Type := {
  limit : option Z;
  offset : option Z;
  filter : option string;   (* e.g. buyingOptions:{FIXED_PRICE} *)
  sort : option string;     (* e.g. price or -price *)
}.

Definition no_options : SearchOptions :=
  {| limit := None; offset := None; filter := None; sort := None |}.

(** Search eBay for products matching the query. *)
Definition searchEbay (query : string) (options : SearchOptions) : M EbaySearchResult :=
  let limit := default 20 (limit options) in
  let offset := default 0 (offset options) in
  try_catch
    (accessToken ← getAccessToken;
     (* Build query params *)
     let params :=
       ([("q", query); ("limit", pretty limit); ("offset", pretty offset)]
        ++ (if truthy_string (filter options) then [("filter", default "" (filter options))] else [])
        ++ (if truthy_string (sort options) then [("sort", default "" (sort options))] else []))%list in
     response ← external (SearchRequest accessToken params) search_endpoint;
     if negb (ok response) then
       errorText ← await (text response);
       (* Handle specific error cases *)
       if status response =? 401 then
         (* Token expired, clear cache and throw *)
         write_cachedToken None;;
         throw (Error "eBay access token expired. Please retry.")
       else if status response =? 429 then
         throw (Error "eBay API rate limit exceeded. Please try again later.")
       else
         throw (Error ("eBay search failed (" +:+ pretty (status response) +:+ "): " +:+ errorText))
     else
       data ← await (json response);
       mret {| success := true;
               products := default [] (itemSummaries data);
               total := if resp_total data =? 0 then 0 else resp_total data;
               searchQuery := query;
               error := None |})
    (fun error =>
       let message :=
         match error with
         | Error message => message
         | NotAnError => "Unknown error occurred"
         end in
       mret {| success := false;
               products := [];
               total := 0;
               searchQuery := query;
               error := Some message |}).

Definition stopWords : list string := [
  "the"; "a"; "an"; "and"; "or"; "but"; "in"; "on"; "at"; "to"; "for"; "of";
  "with"; "by"; "from"; "as"; "is"; "was"; "are"; "were"; "been"; "be"; "have";
  "has"; "had"; "do"; "does"; "did"; "will"; "would"; "could"; "should"; "may";
  "might"; "must"; "shall"; "can"; "need"; "dare"; "ought"; "used"; "this";
  "that"; "these"; "those"; "it"; "its"; "device"; "system"; "apparatus";
  "method"; "invention"; "product"; "innovative"; "new"; "novel"; "smart";
  "intelligent"; "advanced"; "automatic"; "automated" ].

(** [word.length > 2 && !stopWords.has(word)]. *)
Definition keyword (word : string) : bool :=
  (2 <? String.length word)%nat && negb (bool_decide (word ∈ stopWords)).

(** Search for products similar to an invention: the query is made of at
    most five distinct key words of the name and of the first two features. *)
Definition searchSimilarProducts (inventionName description : string)
    (keyFeatures : option (list string)) : M EbaySearchResult :=
  let nameWords := List.filter keyword (Text.split_spaces (Text.toLowerCase inventionName)) in
  let keywords := take 3 nameWords in
  (* Add key features if provided (first 2) *)
  let keywords :=
    match keyFeatures with
    | Some ((_ :: _) as keyFeatures) =>
        let featureWords :=
          take 3 (flat_map (fun f => List.filter keyword
                                       (Text.split_spaces (Text.toLowerCase f)))
                           (take 2 keyFeatures)) in
        (keywords ++ featureWords)%list
    | _ => keywords
    end in
  (* Build final query (eBay works best with 3-5 terms) *)
  let searchQuery := Text.join " " (take 5 (Text.unique keywords)) in
  searchEbay searchQuery
    {| limit := Some 15; offset := None; filter := None; sort := None |}.

(** Check if eBay credentials are configured. *)
Definition isEbayConfigured (w : World) : bool :=
  truthy_string (env w !! "EBAY_CLIENT_ID") && truthy_string (env w !! "EBAY_CLIENT_SECRET").

(** Get credential status message. *)
Definition getCredentialStatus (w : World) : string :=
  if isEbayConfigured w then "eBay API credentials configured"
  else "eBay API credentials not configured. "
       +:+ "To enable real eBay product search, add EBAY_CLIENT_ID and EBAY_CLIENT_SECRET to your environment variables. "
       +:+ "Get your free credentials at: https://developer.ebay.com/my/keys".

End Ebay.


(** ** The retail search agent *)

Module Retail.

(** Modelled from the spec: the declarations of [NoveltyFinding] and
    [NoveltyResult] in [./types] are not among the sources.  The fields are
    those of the spec's data model, which are the ones the agent writes.  A
    field that the agent fills from the parsed reply of the language model
    holds a [jsval]: types are erased at run time and the reply is not
    validated. *)
Record Metadata : Type := {
  item_id : string;
  price : string;
  condition : string;
  image_url : option string;
  seller_username : option string;
  seller_feedback : option string;
  categories : option string;
  location : option string;
}.

Record NoveltyFinding : Type := {
  title : string;
  description : jsval;
  url : string;
  similarity_score : jsval;
  source : string;
  metadata : Metadata;
}.

Record NoveltyResult : Type := {
  agent_type : string;
  is_novel : jsval;
  confidence : jsval;
  findings : list NoveltyFinding;
  summary : jsval;
  truth_scores : jsval;
  search_query_used : string;
  timestamp : Z;
}.

(** A number literal. *)
Definition lit (q : Q) : jsval := Num (Fin q).

(** The object literal of the four truth scores. *)
Definition scores (objective_truth practical_truth completeness contextual_scope : Q) : jsval :=
  Obj [("objective_truth", lit objective_truth);
       ("practical_truth", lit practical_truth);
       ("completeness", lit completeness);
       ("contextual_scope", lit contextual_scope)].

(** Convert eBay product to NoveltyFinding format. *)
Definition ebayProductToFinding (product : Browse.EbayProduct) : NoveltyFinding :=
  {| title := Browse.title product;
     description :=
       Str ((if String.eqb (Browse.condition product) "" then "New" else Browse.condition product)
            +:+ " - " +:+ Browse.title product);
     url := Browse.itemWebUrl product;
     similarity_score := lit 0;   (* Will be set by Claude analysis *)
     source := "eBay";
     metadata :=
       {| item_id := Browse.itemId product;
          price :=
            match Browse.price product with
            | Some p => Browse.currency p +:+ " " +:+ Browse.value p
            | None => "Price not available"
            end;
          condition := Browse.condition product;
          image_url := Browse.imageUrl <$> Browse.image product;
          seller_username := Browse.username <$> Browse.seller product;
          seller_feedback :=
            match Browse.seller product with
            | Some s =>
                if String.eqb (Browse.feedbackPercentage s) "" then None
                else Some (Browse.feedbackPercentage s +:+ "%")
            | None => None
            end;
          categories :=
            (fun cs => Text.join ", " (Browse.categoryName <$> cs)) <$> Browse.categories product;
          location :=
            (fun l => Text.drop_trailing ", "
                        (Text.drop_leading ", "
                           (Browse.city l +:+ ", " +:+ Browse.stateOrProvince l
                            +:+ ", " +:+ Browse.country l)))
            <$> Browse.itemLocation product |} |}.

(** [analysisResult.product_analyses?.map(a => [a.item_id, a]) || []]. *)
Definition analysis_entries (analysisResult : jsval) : completion (list (jsval * jsval)) :=
  product_analyses ← get_property analysisResult "product_analyses";
  match product_analyses with
  | Undefined | Null => Return []
  | Arr elements => mapM (fun a => id ← get_property a "item_id"; Return (id, a)) elements
  | _ => Throw (Error "analysisResult.product_analyses.map is not a function")
  end.

(** [new Map(entries)], read at string keys only: the agent looks up the
    [item_id] of a finding, which no key other than that string equals.
    A later entry replaces an earlier one with the same key. *)
Definition new_Map (entries : list (jsval * jsval)) : gmap string jsval :=
  foldl (fun m entry =>
           match fst entry with
           | Str id => <[id := snd entry]> m
           | _ => m
           end) ∅ entries.

(** The callback of [findings.map]. *)
Definition update_finding (productAnalysisMap : gmap string jsval) (finding : NoveltyFinding)
    : completion NoveltyFinding :=
  let analysis := default Undefined (productAnalysisMap !! item_id (metadata finding)) in
  if truthy analysis then
    score ← get_property analysis "similarity_score";
    text ← get_property analysis "analysis";
    Return {| title := title finding;
              description := logical_or text (description finding);
              url := url finding;
              similarity_score := score;
              source := source finding;
              metadata := metadata finding |}
  else Return finding.

Section Agent.

Variable StringToNumber : string -> number.

(** [(a, b) => b.similarity_score - a.similarity_score]. *)
Definition by_similarity (a b : NoveltyFinding) : completion number :=
  y ← ToNumber StringToNumber (similarity_score b);
  x ← ToNumber StringToNumber (similarity_score a);
  Return (minus y x).

(** PHASE 2, the body of the [try]: the analysis of the language model,
    its scores written into the findings, the findings sorted. *)
Definition analysed (request : NoveltyCheckRequest) (ebayResult : EbaySearchResult)
    (findings : list NoveltyFinding) : M NoveltyResult :=
  content ← external (AnalysisRequest request (products ebayResult)) messages_create;
  match content with
  | None => throw (Error "Cannot read properties of undefined (reading 'type')")
  | Some OtherBlock => throw (Error "Unexpected response type from Claude")
  | Some (TextBlock parsed) =>
      analysisResult ← await parsed;
      (* Update findings with Claude's similarity scores *)
      entries ← await (analysis_entries analysisResult);
      let productAnalysisMap := new_Map entries in
      updatedFindings ← await (mapM (update_finding productAnalysisMap) findings);
      (* Sort by similarity score (highest first) *)
      updatedFindings ← await (Array_sort by_similarity updatedFindings);
      is_novel ← await (get_property analysisResult "is_novel");
      confidence ← await (get_property analysisResult "confidence");
      summary ← await (get_property analysisResult "summary");
      truth_scores ← await (get_property analysisResult "truth_scores");
      now ← ask new_Date;
      mret {| agent_type := "retail_search";
              is_novel := is_novel;
              confidence := confidence;
              findings := updatedFindings;
              summary := summary;
              truth_scores := truth_scores;
              search_query_used := searchQuery ebayResult;
              timestamp := now |}
  end.

(** The body of the [catch]: return findings without AI analysis if Claude
    fails.  The error is logged and dropped. *)
Definition unanalysed (ebayResult : EbaySearchResult) (findings : list NoveltyFinding)
    : M NoveltyResult :=
  now ← ask new_Date;
  mret {| agent_type := "retail_search";
          is_novel := Boolean false;
          confidence := lit 0.3;
          findings := findings;
          summary := Str ("Found " +:+ pretty (length findings)
                          +:+ " potentially similar products on eBay, but analysis failed. Manual review recommended.");
          truth_scores := scores 0.6 0.5 0.4 0.5;
          search_query_used := searchQuery ebayResult;
          timestamp := now |}.

Definition runRetailSearchAgent (request : NoveltyCheckRequest) : M NoveltyResult :=
  configured ← ask Ebay.isEbayConfigured;
  (* Check if eBay is configured *)
  if negb configured then
    status ← ask Ebay.getCredentialStatus;
    now ← ask new_Date;
    mret {| agent_type := "retail_search";
            is_novel := Boolean false;
            confidence := lit 0;
            findings := [];
            summary := Str status;
            truth_scores := scores 0 0 0 0;
            search_query_used := Request.invention_name request;
            timestamp := now |}
  else
    (* PHASE 1: Fetch real products from eBay *)
    ebayResult ← Ebay.searchSimilarProducts (Request.invention_name request)
                   (Request.description request) (Request.key_features request);
    if negb (success ebayResult) then
      now ← ask new_Date;
      mret {| agent_type := "retail_search";
              is_novel := Boolean false;
              confidence := lit 0;
              findings := [];
              summary := Str ("eBay API error: " +:+ default "undefined" (error ebayResult));
              truth_scores := scores 0 0 0 0;
              search_query_used := searchQuery ebayResult;
              timestamp := now |}
    (* If no products found, the invention may be very novel *)
    else if (length (products ebayResult) =? 0)%nat then
      now ← ask new_Date;
      mret {| agent_type := "retail_search";
              is_novel := Boolean true;
              confidence := lit 0.7;   (* Moderate confidence since absence != novelty *)
              findings := [];
              summary := Str ("No similar products found on eBay for " +:+ String "034" (searchQuery ebayResult)
                              +:+ String "034" ". This suggests the invention may be novel in the retail marketplace, though further research on other platforms is recommended.");
              truth_scores := scores 0.8 0.7 0.5 0.8;   (* completeness: only checked eBay *)
              search_query_used := searchQuery ebayResult;
              timestamp := now |}
    else
      (* Convert to findings format (without similarity scores yet) *)
      let findings := ebayProductToFinding <$> products ebayResult in
      try_catch (analysed request ebayResult findings)
                (fun error => unanalysed ebayResult findings).

End Agent.

End Retail.

(** ** The search cache of the SQL schema *)

Module SearchCache.

(** [CHECK (search_type IN ('patent', 'web', 'retail'))]. *)
Inductive search_type : Type := patent | web | retail.

(** A row of [public.search_cache].  The columns declared [NOT NULL] hold a
    value; the others may be [NULL].  A [TIMESTAMPTZ] is a number of
    microseconds. *)
Record row : Type := {
  id : string;                  (* UUID PRIMARY KEY *)
  query_hash : string;          (* TEXT NOT NULL UNIQUE *)
  kind : search_type;           (* search_type TEXT NOT NULL CHECK ... *)
  query_params : jsval;         (* JSONB NOT NULL *)
  results : jsval;              (* JSONB NOT NULL DEFAULT '[]' *)
  result_count : option Z;      (* INTEGER DEFAULT 0 *)
  source_api : string;          (* TEXT NOT NULL *)
  expires_at : option Z;        (* TIMESTAMPTZ, NULL = never expires (for patents) *)
  created_at : option Z;        (* TIMESTAMPTZ DEFAULT NOW() *)
  updated_at : option Z;        (* TIMESTAMPTZ DEFAULT NOW() *)
}.

(** The table: its rows, in the order of a sequential scan. *)
Definition table : Type := list row.

Inductive sql_error : Type :=
  | unique_violation
  | integer_out_of_range.

(** The largest [INTEGER]. *)
Definition INTEGER_MAX : Z := 2147483647.

(** [INSERT INTO search_cache VALUES (r)]: refused when the primary key or
    the [UNIQUE] constraint on [query_hash] would not hold any more. *)
Definition conflicts (r r' : row) : bool :=
  String.eqb (id r') (id r) || String.eqb (query_hash r') (query_hash r).

Definition INSERT (r : row) (t : table) : sql_error + table :=
  if existsb (conflicts r) t then inl unique_violation else inr (t ++ [r])%list.

(** [expires_at IS NOT NULL AND expires_at < NOW()]. *)
Definition expired (now : Z) (r : row) : bool :=
  match expires_at r with
  | Some e => e <? now
  | None => false
  end.

(** [cleanup_expired_cache()]: the [DELETE], then [ROW_COUNT] into the
    [INTEGER] variable [deleted_count].  A count that does not fit raises an
    error, and the function's [DELETE] is undone with it. *)
Definition cleanup_expired_cache (now : Z) (t : table) : (sql_error + Z) * table :=
  let remaining := List.filter (fun r => negb (expired now r)) t in
  let ROW_COUNT := Z.of_nat (length t) - Z.of_nat (length remaining) in
  if ROW_COUNT <=? INTEGER_MAX then (inr ROW_COUNT, remaining)
  else (inl integer_out_of_range, t).

(** The trigger [update_search_cache_updated_at], which runs
    [update_updated_at_column] before every [UPDATE] of a row. *)
Definition update_updated_at_column (now : Z) (new : row) : row :=
  {| id := id new; query_hash := query_hash new; kind := kind new;
     query_params := query_params new; results := results new;
     result_count := result_count new; source_api := source_api new;
     expires_at := expires_at new; created_at := created_at new;
     updated_at := Some now |}.

Section Store.

(** Modelled from the spec: the fingerprint of a request (4.1), a
    deterministic function of the search type and of the parameters.  The
    code that computes it is not among the sources. *)
Variable fingerprint : search_type -> jsval -> string.

(** Modelled from the spec: the expiry of an entry (4.2, TTL policy): never
    for a patent, whatever the caller passes; otherwise [ttl] from now, seven
    days when none is given. *)
Definition SEVEN_DAYS : Z := 7 * 24 * 60 * 60 * 1000000.

Definition expiry (now : Z) (k : search_type) (ttl : option Z) : option Z :=
  match k with
  | patent => None
  | _ => Some (now + default SEVEN_DAYS ttl)
  end.

(** Modelled from the spec: the entry that [put] writes (4.2), whole:
    the results and their count together. *)
Definition entry (now : Z) (new_id : string) (k : search_type) (params : jsval)
    (found : list jsval) (api : string) (ttl : option Z) : row :=
  {| id := new_id; query_hash := fingerprint k params; kind := k;
     query_params := params; results := Arr found;
     result_count := Some (Z.of_nat (length found)); source_api := api;
     expires_at := expiry now k ttl;
     created_at := Some now; updated_at := Some now |}.

(** Modelled from the spec: [put] (4.2), an upsert on the fingerprint in one
    statement.  An entry that exists has its results, count, source and
    expiry replaced, and the trigger bumps [updated_at]; otherwise the new
    entry is inserted, under the constraints of the table. *)
Definition replace (now : Z) (k : search_type) (found : list jsval) (api : string)
    (ttl : option Z) (old : row) : row :=
  update_updated_at_column now
    {| id := id old; query_hash := query_hash old; kind := kind old;
       query_params := query_params old; results := Arr found;
       result_count := Some (Z.of_nat (length found)); source_api := api;
       expires_at := expiry now k ttl;
       created_at := created_at old; updated_at := updated_at old |}.

Definition put (now : Z) (new_id : string) (k : search_type) (params : jsval)
    (found : list jsval) (api : string) (ttl : option Z) (t : table) : sql_error + table :=
  let h := fingerprint k params in
  if existsb (fun r => String.eqb (query_hash r) h) t then
    inr ((fun r => if String.eqb (query_hash r) h then replace now k found api ttl r else r) <$> t)
  else INSERT (entry now new_id k params found api ttl) t.

(** Modelled from the spec: [get] (4.2), with lazy expiry: an entry past its
    [expires_at] reads as absent, swept or not. *)
Definition get (now : Z) (k : search_type) (params : jsval) (t : table) : option row :=
  List.find (fun r => String.eqb (query_hash r) (fingerprint k params) && negb (expired now r)) t.

(** Modelled from the spec: [invalidate] (4.2): delete the entry, if any. *)
Definition invalidate (h : string) (t : table) : table :=
  List.filter (fun r => negb (String.eqb (query_hash r) h)) t.

(** One statement against the store.  [RacingInsert] is the [INSERT] of a
    writer that found no entry for its fingerprint and lost the race since:
    it goes through the constraints like any other. *)
Inductive statement : Type :=
  | Put (new_id : string) (k : search_type) (params : jsval) (found : list jsval)
        (api : string) (ttl : option Z)
  | RacingInsert (new_id : string) (k : search_type) (params : jsval) (found : list jsval)
        (api : string) (ttl : option Z)
  | Get (k : search_type) (params : jsval)
  | Invalidate (h : string)
  | Cleanup.

(** A statement that fails leaves the table as it was. *)
Definition execute (now : Z) (s : statement) (t : table) : table :=
  match s with
  | Put new_id k params found api ttl =>
      match put now new_id k params found api ttl t with inr t' => t' | inl _ => t end
  | RacingInsert new_id k params found api ttl =>
      match INSERT (entry now new_id k params found api ttl) t with inr t' => t' | inl _ => t end
  | Get _ _ => t
  | Invalidate h => invalidate h t
  | Cleanup => snd (cleanup_expired_cache now t)
  end.

(** The states of the store: the empty table, and what statements, each at
    its own time, lead to.  Statements of concurrent sessions interleave; each
    takes effect at once or not at all. *)
Inductive reachable : table -> Prop :=
  | reachable_empty : reachable []
  | reachable_step t now s : reachable t -> reachable (execute now s t).

(** An entry is whole: its count is the number of its results. *)
Definition whole (r : row) : Prop :=
  exists found, results r = Arr found /\ result_count r = Some (Z.of_nat (length found)).

(** What the constraints and the statements keep: no two rows with the same
    [query_hash], no two with the same [id], and every row whole. *)
Definition consistent (t : table) : Prop :=
  NoDup (query_hash <$> t) /\ NoDup (id <$> t) /\ Forall whole t.

End Store.

End SearchCache.

(** ** Properties *)

Module Props.

(** The requests for analysis among those issued so far. *)
Definition is_analysis (r : outgoing) : bool :=
  match r with
  | AnalysisRequest _ _ => true
  | _ => false
  end.

Definition analysis_requests (s : Store) : list outgoing := List.filter is_analysis (issued s).

(** A thrown value that [searchEbay] turns into a message with something in
    it: anything but an [Error] whose message is empty. *)
Definition informative (e : thrown) : Prop := e <> Error "".

Definition fails_informatively {A} (c : completion A) : Prop :=
  forall e, c = Throw e -> informative e.

(** The platform does not raise errors with an empty message: neither
    [fetch], nor the reading of a body. *)
Definition endpoint_informative {D} (endpoint : completion (Response D)) : Prop :=
  fails_informatively endpoint /\
  forall response, endpoint = Return response ->
    fails_informatively (text response) /\ fails_informatively (json response).

Definition platform_informative (w : World) : Prop :=
  endpoint_informative (token_endpoint w) /\ endpoint_informative (search_endpoint w).

(** *** The retail agent *)

Import Retail.

(** [v.name], read where it cannot throw. *)
Definition field (v : jsval) (name : string) : jsval :=
  match v with
  | Obj properties => default Undefined (own properties name)
  | _ => Undefined
  end.

(** A number in the closed interval from 0 to 1. *)
Definition unit_interval (v : jsval) : Prop :=
  match v with
  | Num (Fin q) => (0 <= q <= 1)%Q
  | _ => False
  end.

Definition truth_scores_bounded (v : jsval) : Prop :=
  unit_interval (field v "objective_truth") /\
  unit_interval (field v "practical_truth") /\
  unit_interval (field v "completeness") /\
  unit_interval (field v "contextual_scope").

(** Confidence, truth scores and every similarity score within bounds. *)
Definition bounded (r : NoveltyResult) : Prop :=
  unit_interval (confidence r) /\
  truth_scores_bounded (truth_scores r) /\
  Forall (fun f => unit_interval (similarity_score f)) (findings r).

(** The analysis of the language model: the value its reply parses to. *)
Definition analysis (w : World) : option jsval :=
  match messages_create w with
  | Return (Some (TextBlock (Return v))) => Some v
  | _ => None
  end.

(** The elements of its [product_analyses]. *)
Definition product_analyses (w : World) : list jsval :=
  match analysis w with
  | Some v =>
      match field v "product_analyses" with
      | Arr elements => elements
      | _ => []
      end
  | None => []
  end.

(** The score of a finding comes from the language model: one of the product
    analyses names the finding's item and carries that score. *)
Definition resolved (w : World) (f : NoveltyFinding) : Prop :=
  exists a, a ∈ product_analyses w /\
            field a "item_id" = Str (item_id (metadata f)) /\
            similarity_score f = field a "similarity_score".


(** The language model kept to the bounds it was asked for. *)
Definition analysis_bounded (w : World) : Prop :=
  (forall v, analysis w = Some v ->
     unit_interval (field v "confidence") /\
     truth_scores_bounded (field v "truth_scores")) /\
  Forall (fun a => unit_interval (field a "similarity_score")) (product_analyses w).

(** A number other than [NaN]. *)
Definition numeric (v : jsval) : Prop :=
  match v with
  | Num NaN => False
  | Num _ => True
  | _ => False
  end.

(** Every similarity score of the language model is a number. *)
Definition analysis_numeric (w : World) : Prop :=
  Forall (fun a => numeric (field a "similarity_score")) (product_analyses w).

(** The order of numbers; [NaN] is below and above nothing. *)
Definition number_leb (x y : number) : bool :=
  match x, y with
  | NaN, _ | _, NaN => false
  | Inf true, _ => true
  | _, Inf false => true
  | Inf false, _ => false
  | _, Inf true => false
  | Fin p, Fin q => Qle_bool p q
  end.

(** [x >= y], of two values that are numbers. *)
Definition at_least (x y : jsval) : bool :=
  match x, y with
  | Num m, Num n => number_leb n m
  | _, _ => false
  end.

(** Highest similarity first. *)
Definition descending (l : list NoveltyFinding) : Prop :=
  StronglySorted (fun a b => at_least (similarity_score a) (similarity_score b) = true) l.

(** The findings whose score equals [n]. *)
Definition has_score (n : number) (f : NoveltyFinding) : bool :=
  at_least (similarity_score f) (Num n) && at_least (Num n) (similarity_score f).

(** The same listing, whatever the score and the description. *)
Definition same_listing (f u : NoveltyFinding) : Prop :=
  title u = title f /\ url u = url f /\ source u = source f /\ metadata u = metadata f.

(** The score that a list of product analyses gives a finding: the score of
    the last analysis that names the finding's item, and the 0 the finding was
    created with when no analysis names it. *)
Definition scored_by (analyses : list jsval) (f : NoveltyFinding) : Prop :=
  (exists before a after,
     analyses = (before ++ a :: after)%list /\
     field a "item_id" = Str (item_id (metadata f)) /\
     Forall (fun b => field b "item_id" <> Str (item_id (metadata f))) after /\
     similarity_score f = field a "similarity_score") \/
  (Forall (fun b => field b "item_id" <> Str (item_id (metadata f))) analyses /\
   similarity_score f = lit 0).

(** The agent adopts the analysis of the language model: phase 1 has found
    products, and the body of the [try] runs to its end. *)
Definition analysis_adopted (StringToNumber : string -> number)
    (request : Request.NoveltyCheckRequest) (w : World) (s : Store) : Prop :=
  exists ebayResult s1 r s',
    Ebay.isEbayConfigured w = true /\
    Ebay.searchSimilarProducts (Request.invention_name request) (Request.description request)
      (Request.key_features request) w s = (Return ebayResult, s1) /\
    success ebayResult = true /\ products ebayResult <> [] /\
    analysed StringToNumber request ebayResult (ebayProductToFinding <$> products ebayResult)
      w s1 = (Return r, s').

End Props.

(** ** Sample worlds *)

Module Sample.

Definition credentials : gmap string string :=
  {[ "EBAY_CLIENT_ID" := "client"; "EBAY_CLIENT_SECRET" := "secret" ]}.

Definition issued_token : Response TokenData :=
  {| status := 200; text := Return "";
     json := Return {| access_token := "v^1.1#fresh"; expires_in := 7200 |} |}.

Definition listing (id name : string) : Browse.EbayProduct :=
  {| Browse.itemId := id; Browse.title := name; Browse.itemWebUrl := "https://www.ebay.com/itm/" +:+ id;
     Browse.price := Some {| Browse.value := "19.99"; Browse.currency := "USD" |};
     Browse.image := None; Browse.additionalImages := None; Browse.condition := "New";
     Browse.seller := None; Browse.categories := None; Browse.itemLocation := None |}.

Definition found (items : list Browse.EbayProduct) : Response Browse.EbaySearchResponse :=
  {| status := 200; text := Return "";
     json := Return {| Browse.href := ""; Browse.resp_total := Z.of_nat (length items);
                       Browse.next := None; Browse.resp_limit := 15; Browse.resp_offset := 0;
                       Browse.itemSummaries := Some items |} |}.

(** A 401 whose body cannot be read: the connection drops after the
    headers. *)
Definition unauthorized_truncated : Response Browse.EbaySearchResponse :=
  {| status := 401; text := Throw (Error "terminated"); json := Throw (Error "terminated") |}.

Definition unauthorized : Response Browse.EbaySearchResponse :=
  {| status := 401; text := Return "Unauthorized"; json := Throw (Error "Unexpected token U") |}.

(** A world with credentials, where the token endpoint issues a token, the
    search answers [search] and the language model answers [reply]. *)
Definition world (search : completion (Response Browse.EbaySearchResponse))
    (reply : completion (option ContentBlock)) : World :=
  {| env := credentials; clock := 1700000000000;
     token_endpoint := Return issued_token;
     search_endpoint := search;
     messages_create := reply;
     new_Date := 1700000002000 |}.

(** The same without credentials. *)
Definition bare_world : World :=
  {| env := ∅; clock := 1700000000000;
     token_endpoint := Throw NotAnError;
     search_endpoint := Throw NotAnError;
     messages_create := Throw NotAnError;
     new_Date := 1700000002000 |}.

Definition cold : Store := {| cachedToken := None; issued := [] |}.

(** A store with a token that is good for another hour. *)
Definition warm : Store :=
  {| cachedToken := Some {| token := "v^1.1#cached"; expiresAt := 1700003600000 |};
     issued := [] |}.

Definition invention : Request.NoveltyCheckRequest :=
  {| Request.invention_name := "Solar phone case";
     Request.description := "A phone case that charges the phone from sunlight";
     Request.problem_statement := None;
     Request.target_audience := None;
     Request.key_features := Some ["solar panel"; "battery"] |}.

(** Two products, and answers of the language model about them. *)
Definition two_listings : list Browse.EbayProduct :=
  [listing "110" "Solar charger case"; listing "220" "Battery phone case"].

Definition product_analysis (id : string) (score : Q) : jsval :=
  Obj [("item_id", Str id); ("similarity_score", Retail.lit score);
       ("analysis", Str "Solves the same problem in a similar way.")].

Definition answer (confidence : Q) (analyses : list jsval) : completion (option ContentBlock) :=
  Return (Some (TextBlock (Return (Obj [
    ("is_novel", Boolean false);
    ("confidence", Retail.lit confidence);
    ("product_analyses", Arr analyses);
    ("summary", Str "Similar products are on sale.");
    ("truth_scores", Retail.scores 0.9 0.8 0.7 0.8)])))).

(** Within the bounds, the second product more similar than the first. *)
Definition sound_answer : completion (option ContentBlock) :=
  answer 0.8 [product_analysis "110" 0.4; product_analysis "220" 0.9].

(** A confidence of 1.5. *)
Definition overconfident_answer : completion (option ContentBlock) :=
  answer 1.5 [product_analysis "110" 0.4; product_analysis "220" 0.9].

(** No similarity score for the first product. *)
Definition unscored_answer : completion (option ContentBlock) :=
  answer 0.8 [Obj [("item_id", Str "110"); ("analysis", Str "Much the same product.")];
              product_analysis "220" 0.9].

(** The service is overloaded. *)
Definition no_answer : completion (option ContentBlock) :=
  Throw (Error "529 overloaded_error").

Definition shop (reply : completion (option ContentBlock)) : World :=
  world (Return (found two_listings)) reply.

(** A fingerprint for the samples: the search type and the query. *)
Definition sample_fingerprint (k : SearchCache.search_type) (params : jsval) : string :=
  match k with
  | SearchCache.patent => "patent"
  | SearchCache.web => "web"
  | SearchCache.retail => "retail"
  end +:+ ":" +:+
  match params with
  | Obj [(_, Str q)] => q
  | _ => ""
  end.

Definition solar_query : jsval := Obj [("q", Str "solar phone case")].

(** Rows of the cache: one past its expiry, a patent, one still good. *)
Definition cached (row_id hash : string) (k : SearchCache.search_type) (expiry : option Z)
    : SearchCache.row :=
  {| SearchCache.id := row_id; SearchCache.query_hash := hash; SearchCache.kind := k;
     SearchCache.query_params := solar_query; SearchCache.results := Arr [];
     SearchCache.result_count := Some 0; SearchCache.source_api := "ebay";
     SearchCache.expires_at := expiry;
     SearchCache.created_at := Some 100; SearchCache.updated_at := Some 100 |}.

Definition three_rows : SearchCache.table :=
  [cached "1" "retail:solar" SearchCache.retail (Some 500);
   cached "2" "patent:solar" SearchCache.patent None;
   cached "3" "web:solar" SearchCache.web (Some 5000)].

(** Two sessions put results for the same request at the same time; the
    second one to insert loses, then writes through the upsert. *)
Definition raced : SearchCache.table :=
  SearchCache.execute sample_fingerprint 1002
    (SearchCache.Put "c" SearchCache.retail solar_query [Str "item2"] "ebay" None)
    (SearchCache.execute sample_fingerprint 1001
       (SearchCache.RacingInsert "b" SearchCache.retail solar_query [Str "item2"] "ebay" None)
       (SearchCache.execute sample_fingerprint 1000
          (SearchCache.Put "a" SearchCache.retail solar_query [Str "item1"; Str "item2"]
             "ebay" None)
          [])).

(** A stand-in for StringToNumber, for worlds in which no string is coerced
    to a number. *)
Definition no_numeric_strings : string -> number := fun _ => NaN.

End Sample.

(** ** Replies that the agent cannot read *)

Module Edge.

Import Retail Props.

(** A reply that parses, but on which the agent's reading of
    [product_analyses] throws: [null] itself; a [product_analyses] that is
    there and is neither [null] nor an array; an array with a [null] in it. *)
Definition unreadable (v : jsval) : Prop :=
  v = Null \/ v = Undefined \/
  match field v "product_analyses" with
  | Boolean _ | Num _ | Str _ | Obj _ => True
  | Arr elements => Null ∈ elements \/ Undefined ∈ elements
  | Undefined | Null => False
  end.

(** The product analysis names the item. *)
Definition names (id : string) (a : jsval) : Prop := field a "item_id" = Str id.

End Edge.

(** ** More sample worlds *)

Module Sample2.

(** A store whose token expires in one minute. *)
Definition stale : Store :=
  {| cachedToken := Some {| token := "v^1.1#old"; expiresAt := 1700000060000 |};
     issued := [] |}.

(** The token endpoint cannot be reached. *)
Definition offline : World :=
  {| env := Sample.credentials; clock := 1700000000000;
     token_endpoint := Throw (Error "fetch failed");
     search_endpoint := Throw (Error "fetch failed");
     messages_create := Throw (Error "fetch failed");
     new_Date := 1700000002000 |}.

(** The same world as [Sample.world], an hour later. *)
Definition an_hour_later (w : World) : World :=
  {| env := env w; clock := clock w + 3600000;
     token_endpoint := Throw (Error "fetch failed");
     search_endpoint := search_endpoint w;
     messages_create := messages_create w;
     new_Date := new_Date w + 3600000 |}.

Definition rate_limited : Response Browse.EbaySearchResponse :=
  {| status := 429; text := Return "Too many requests"; json := Throw (Error "Unexpected token T") |}.

(** The reply is the text [null]. *)
Definition null_answer : completion (option ContentBlock) :=
  Return (Some (TextBlock (Return Null))).

(** A verdict without product analyses. *)
Definition verdict : jsval :=
  Obj [("is_novel", Boolean true);
       ("confidence", Retail.lit 0.9);
       ("summary", Str "Nothing alike is on sale.")].

Definition verdict_only : completion (option ContentBlock) :=
  Return (Some (TextBlock (Return verdict))).

(** Two analyses of the first product. *)
Definition twice_analysed : jsval :=
  Obj [("product_analyses",
        Arr [Sample.product_analysis "110" 0.2; Sample.product_analysis "220" 0.9;
             Sample.product_analysis "110" 0.6])].

(** The store after a token has been issued in [Sample.world]. *)
Definition refreshed : Store :=
  {| cachedToken := Some {| token := "v^1.1#fresh"; expiresAt := 1700007200000 |};
     issued := [TokenRequest "client" "secret"] |}.

(** A world in which the search is refused for the moment. *)
Definition busy : World := Sample.world (Return rate_limited) Sample.no_answer.

(** A listing located by its state alone. *)
Definition from_ohio : Browse.EbayProduct :=
  {| Browse.itemId := "330"; Browse.title := "Solar bank";
     Browse.itemWebUrl := "https://www.ebay.com/itm/330";
     Browse.price := None; Browse.image := None; Browse.additionalImages := None;
     Browse.condition := ""; Browse.seller := None; Browse.categories := None;
     Browse.itemLocation :=
       Some {| Browse.city := ""; Browse.stateOrProvince := "Ohio"; Browse.country := "" |} |}.

(** A finding with the score that an analysis gave it. *)
Definition scored (product : Browse.EbayProduct) (score : Q) : Retail.NoveltyFinding :=
  let finding := Retail.ebayProductToFinding product in
  {| Retail.title := Retail.title finding;
     Retail.description := Retail.description finding;
     Retail.url := Retail.url finding;
     Retail.similarity_score := Retail.lit score;
     Retail.source := Retail.source finding;
     Retail.metadata := Retail.metadata finding |}.

Definition ranked : list Retail.NoveltyFinding :=
  [scored (Sample.listing "220" "Battery phone case") 0.9;
   scored (Sample.listing "110" "Solar charger case") 0.4;
   scored from_ohio 0.4].

End Sample2.

(** ** The review of findings: [retail-results.tsx] and the web results *)

Module Review.

(** [ConflictLevel]. *)
Inductive ConflictLevel : Type := high | medium | low.

#[export] Instance ConflictLevel_eq_dec : EqDecision ConflictLevel.
Proof. solve_decision. Defined.

(** How grave a level is. *)
Definition severity (level : ConflictLevel) : nat :=
  match level with
  | high => 2
  | medium => 1
  | low => 0
  end.

(** The doubles that the literals [0.7] and [0.4] denote: the one just
    below seven tenths, the other just above four tenths.  A similarity is
    compared with these, as the number it is. *)
Definition DOUBLE_0_7 : Q := 3152519739159347 # 4503599627370496.
Definition DOUBLE_0_4 : Q := 3602879701896397 # 9007199254740992.

(** [x >= q], of a number and a finite bound. *)
Definition reaches (x : number) (q : Q) : bool :=
  match x with
  | NaN => false
  | Inf negative => negb negative
  | Fin p => Qle_bool q p
  end.

(** The same function in the retail and in the web results. *)
Definition getInitialConflictLevel (similarity : number) : ConflictLevel :=
  if reaches similarity DOUBLE_0_7 then high
  else if reaches similarity DOUBLE_0_4 then medium
  else low.

(** [FindingData]. *)
Record FindingData : Type := {
  id : string;
  title : string;
  description : string;
  url : option string;
  source : string;
  similarityScore : number;
  imageUrl : option string;
  price : option string;
  patentNumber : option string;
  filingDate : option string;
  aiConflictSummary : option string;
  metadata : option (gmap string string);
}.

(** [FindingState]. *)
Record FindingState : Type := {
  conflictLevel : ConflictLevel;
  notes : string;
}.

(** The initial value of [findingStates]: the own properties of the object
    that the initializer fills, one per finding id, a later finding with the
    same id replacing an earlier one.  An assignment to the key [__proto__]
    gives the object a prototype and no property. *)
Definition initial_state (finding : FindingData) : FindingState :=
  {| conflictLevel := getInitialConflictLevel (similarityScore finding); notes := "" |}.

Definition initial_states (findings : list FindingData) : gmap string FindingState :=
  foldl (fun initial finding =>
           if String.eqb (id finding) "__proto__" then initial
           else <[id finding := initial_state finding]> initial)
        ∅ findings.

(** [Object.values(findingStates).filter(s => s.conflictLevel === level).length]. *)
Definition count_level (level : ConflictLevel) (findingStates : gmap string FindingState) : nat :=
  length (filter (fun s => conflictLevel s = level) (snd <$> map_to_list findingStates)).

Definition highConflictCount : gmap string FindingState -> nat := count_level high.
Definition mediumConflictCount : gmap string FindingState -> nat := count_level medium.

(** Findings as the page hands them over: three listings, similar to
    different degrees. *)
Definition shown (item name : string) (similarity : Q) : FindingData :=
  {| id := item; title := name; description := "New - " +:+ name;
     url := Some ("https://www.ebay.com/itm/" +:+ item); source := "eBay";
     similarityScore := Fin similarity;
     imageUrl := None; price := Some "USD 19.99";
     patentNumber := None; filingDate := None; aiConflictSummary := None;
     metadata := None |}.

Definition three_shown : list FindingData :=
  [shown "110" "Solar charger case" 0.5;
   shown "220" "Battery phone case" 0.875;
   shown "330" "Solar bank" 0.125].

End Review.

(** * Theorems *)

(** Running the monad, and case analysis on what a run inspects. *)
Ltac cases H :=
  repeat match type of H with
         | context [match ?x with _ => _ end] => destruct x eqn:?; simpl in H
         end;
  try discriminate.

Ltac run := unfold mbind, mret, M_bind, M_ret, ask, await, throw, external, try_catch,
              read_cachedToken, write_cachedToken; simpl.

(** ** The helpers on small inputs *)

Example split_spaces_runs : Text.split_spaces " a  bc " = [""; "a"; "bc"; ""].
Proof. reflexivity. Qed.

Example toLowerCase_ascii : Text.toLowerCase "Smart SOLAR Phone" = "smart solar phone".
Proof. reflexivity. Qed.

Example unique_keeps_first : Text.unique ["a"; "b"; "a"; "c"; "b"] = ["a"; "b"; "c"].
Proof. reflexivity. Qed.

Example location_without_city :
  Text.drop_trailing ", " (Text.drop_leading ", " ", CA, ") = "CA".
Proof. reflexivity. Qed.

Example keyword_drops_stop_words :
  List.filter Ebay.keyword ["smart"; "solar"; "of"; "phone"; "the"; "case"]
  = ["solar"; "phone"; "case"].
Proof. reflexivity. Qed.

Example ToNumber_of_array :
  ToNumber Sample.no_numeric_strings (Arr [Arr [Num (Fin 5)]]) = Return (Fin 5) /\
  ToNumber Sample.no_numeric_strings (Arr [Null; Null]) = Return NaN /\
  ToNumber Sample.no_numeric_strings (Obj [("toString", Null)]) = Throw TypeError.
Proof. repeat split. Qed.

Example sort_numbers_descending :
  Array_sort (fun a b : Q => Return (minus (Fin b) (Fin a))) [0.4; 0.9; 0; 0.9]%Q
  = Return [0.9; 0.9; 0.4; 0]%Q.
Proof. reflexivity. Qed.

(** ** The token cache *)

Section TokenCache.

Import Ebay Props.

Lemma isEbayConfigured_spec w :
  isEbayConfigured w =
  negb (negb (truthy_string (env w !! "EBAY_CLIENT_ID"))
        || negb (truthy_string (env w !! "EBAY_CLIENT_SECRET"))).
Proof. unfold isEbayConfigured. by repeat destruct (truthy_string _). Qed.

Lemma credentials_truthy w :
  isEbayConfigured w = true ->
  negb (truthy_string (env w !! "EBAY_CLIENT_ID"))
  || negb (truthy_string (env w !! "EBAY_CLIENT_SECRET")) = false.
Proof. rewrite isEbayConfigured_spec. by destruct (_ || _). Qed.



End TokenCache.

(** ** [searchEbay] *)

Section Search.

Import Ebay Props.

Lemma getAccessToken_throws w s e s1 :
  getAccessToken w s = (Throw e, s1) -> platform_informative w -> informative e.
Proof.
  intros Hrun [[Hfetch Hbody] _]. unfold getAccessToken in Hrun.
  revert Hrun. run. intros Hrun. cases Hrun; injection Hrun as <- <-;
    try discriminate;
    try (by apply Hfetch);
    try (by apply Hfetch);
    destruct (Hbody _ eq_refl) as [Htext Hjson];
    first [by apply Htext | by apply Hjson].
Qed.

Lemma message_of_informative e :
  informative e ->
  match e with Error message => message | NotAnError => "Unknown error occurred" end <> "".
Proof. destruct e as [m|]; [|done]. intros H ->. by apply H. Qed.

Lemma searchEbay_failure_results (query : string) (options : SearchOptions) (w : World) (s : Store) :
  exists r s',
    searchEbay query options w s = (Return r, s') /\
    searchQuery r = query /\
    (success r = false ->
     products r = [] /\ total r = 0 /\
     exists message, error r = Some message /\ (platform_informative w -> message <> "")) /\
    (forall tok s1 response body,
       getAccessToken w s = (Return tok, s1) ->
       search_endpoint w = Return response ->
       status response = 401 -> text response = Return body ->
       success r = false /\ cachedToken s' = None /\
       error r = Some "eBay access token expired. Please retry.").
Proof.
  unfold searchEbay. run.
  destruct (getAccessToken w s) as [[tok|e] s1] eqn:Htoken.
  - destruct (search_endpoint w) as [response|e] eqn:Hsearch.
    + destruct (ok response) eqn:Hok; simpl.
      * destruct (json response) as [data|e] eqn:Hjson; simpl.
        -- eexists _, _. split; [done|]. split; [done|]. split; [done|].
           intros ? ? ? ? [= <- <-] [= <-] H401 _.
           unfold ok in Hok. rewrite H401 in Hok. done.
        -- eexists _, _. split; [done|]. split; [done|]. split.
           ++ intros _. repeat split. eexists. split; [done|].
              intros [_ [_ Hbody]]. apply message_of_informative.
              destruct (Hbody _ Hsearch) as [Ht Hj].
              first [by apply Ht | by apply Hj].
           ++ intros ? ? ? ? [= <- <-] [= <-] H401 _.
              unfold ok in Hok. rewrite H401 in Hok. done.
      * destruct (text response) as [body|e] eqn:Htext; simpl.
        -- destruct (status response =? 401) eqn:H401; simpl;
             [|destruct (status response =? 429) eqn:H429; simpl].
           ++ eexists _, _. split; [done|]. split; [done|]. split.
              ** intros _. repeat split. eexists. split; [done|]. done.
              ** done.
           ++ eexists _, _. split; [done|]. split; [done|]. split.
              ** intros _. repeat split. eexists. split; [done|]. done.
              ** intros ? ? ? ? _ [= <-] E _. rewrite E in H401. done.
           ++ eexists _, _. split; [done|]. split; [done|]. split.
              ** intros _. repeat split. eexists. split; [done|]. done.
              ** intros ? ? ? ? _ [= <-] E _. rewrite E in H401. done.
        -- eexists _, _. split; [done|]. split; [done|]. split.
           ++ intros _. repeat split. eexists. split; [done|].
              intros [_ [_ Hbody]]. apply message_of_informative.
              destruct (Hbody _ Hsearch) as [Ht Hj].
              first [by apply Ht | by apply Hj].
           ++ intros ? ? ? ? _ [= <-] _ E. rewrite E in Htext. done.
    + eexists _, _. split; [done|]. split; [done|]. split.
      * intros _. repeat split. eexists. split; [done|].
        intros [_ [Hfetch _]]. apply message_of_informative. by apply Hfetch.
      * intros ? ? ? ? _ E. done.
  - eexists _, _. split; [done|]. split; [done|]. split.
    + intros _. repeat split. eexists. split; [done|].
      intros Hw. apply message_of_informative. by eapply getAccessToken_throws.
    + intros ? ? ? ? E. done.
Qed.

Lemma getAccessToken_unconfigured w s :
  isEbayConfigured w = false -> exists e, getAccessToken w s = (Throw e, s).
Proof.
  intros Hconf. rewrite isEbayConfigured_spec in Hconf. apply negb_false_iff in Hconf.
  unfold getAccessToken. run. rewrite Hconf. simpl. eauto.
Qed.

Lemma searchEbay_succeeds_only query options w s r s' :
  searchEbay query options w s = (Return r, s') -> success r = true ->
  exists tok s1 response data,
    getAccessToken w s = (Return tok, s1) /\
    search_endpoint w = Return response /\
    ok response = true /\ json response = Return data.
Proof.
  unfold searchEbay. run. intros Hrun.
  destruct (getAccessToken w s) as [[tok|e] s1] eqn:Htoken; simpl in Hrun;
    [|by injection Hrun as <- <-].
  destruct (search_endpoint w) as [response|e] eqn:Hsearch; simpl in Hrun;
    [|by injection Hrun as <- <-].
  destruct (ok response) eqn:Hok; simpl in Hrun.
  - destruct (json response) as [data|e] eqn:Hjson; simpl in Hrun;
      injection Hrun as <- <-; [eauto 10 | done].
  - destruct (text response); simpl in Hrun; [|by injection Hrun as <- <-].
    destruct (status response =? 401); simpl in Hrun; [by injection Hrun as <- <-|].
    destruct (status response =? 429); simpl in Hrun; by injection Hrun as <- <-.
Qed.

(** [searchEbay] always returns a result, for the query it was given, and
    every failure is reported as one: without credentials, when no token is
    obtained, when the search cannot be reached, when it answers 401, 429 or
    any status outside 200..299, when its body does not parse, the result has
    [success = false].  A result that reports a failure has no products, a
    total of 0 and an error message; the message has something in it unless
    the platform raised an error whose message is empty.  When the search
    answers 401 and the body of that answer has been read, the token cache is
    empty when the failure is returned. *)
Theorem searchEbay_failures (query : string) (options : SearchOptions) (w : World) (s : Store) :
  exists r s',
    searchEbay query options w s = (Return r, s') /\
    searchQuery r = query /\
    (isEbayConfigured w = false \/
     (exists e s1, getAccessToken w s = (Throw e, s1)) \/
     (exists e, search_endpoint w = Throw e) \/
     (exists response,
        search_endpoint w = Return response /\
        (status response = 401 \/ status response = 429 \/ ok response = false \/
         exists e, json response = Throw e)) ->
     success r = false) /\
    (success r = false ->
     products r = [] /\ total r = 0 /\
     exists message, error r = Some message /\ (platform_informative w -> message <> "")) /\
    (forall tok s1 response body,
       getAccessToken w s = (Return tok, s1) ->
       search_endpoint w = Return response ->
       status response = 401 -> text response = Return body ->
       success r = false /\ cachedToken s' = None /\
       error r = Some "eBay access token expired. Please retry.").
Proof.
  destruct (searchEbay_failure_results query options w s)
    as (r & s' & Hrun & Hquery & Hfail & H401).
  exists r, s'. split; [done|]. split; [done|]. split; [|done].
  intros Hmode. destruct (success r) eqn:Hok; [|done]. exfalso.
  destruct (searchEbay_succeeds_only _ _ _ _ _ _ Hrun Hok)
    as (tok & s1 & response & data & Htoken & Hsearch & Hokr & Hjson).
  destruct Hmode as [Hconf|[(e & s2 & He)|[(e & He)|(response' & Hsearch' & Hbad)]]].
  - destruct (getAccessToken_unconfigured w s Hconf) as [e He]. congruence.
  - congruence.
  - congruence.
  - rewrite Hsearch in Hsearch'. injection Hsearch' as <-.
    unfold ok in Hokr.
    destruct Hbad as [Hs|[Hs|[Hnok|(e & He)]]].
    + rewrite Hs in Hokr. done.
    + rewrite Hs in Hokr. done.
    + unfold ok in Hnok. congruence.
    + congruence.
Qed.

(** The guarantee at work: a 401 whose body is read empties the cache. *)
Lemma searchEbay_failures_witness :
  let w := Sample.world (Return Sample.unauthorized) (Throw NotAnError) in
  platform_informative w /\
  exists r s',
    searchEbay "solar phone case" no_options w Sample.warm = (Return r, s') /\
    success r = false /\ products r = [] /\ total r = 0 /\
    error r = Some "eBay access token expired. Please retry." /\
    cachedToken s' = None.
Proof.
  intros w.
  assert (Hw : platform_informative w).
  { split; (split; [intros e He; discriminate He |]);
      intros response [= <-]; split; intros e He; try discriminate He.
    injection He as <-. discriminate. }
  split; [exact Hw|].
  destruct (searchEbay_failures "solar phone case" no_options w Sample.warm)
    as (r & s' & Hrun & _ & Hmode & Hfail & H401).
  assert (Hs : success r = false).
  { apply Hmode. right. right. right. exists Sample.unauthorized.
    split; [reflexivity|]. left. reflexivity. }
  destruct (H401 "v^1.1#cached" Sample.warm Sample.unauthorized "Unauthorized")
    as (_ & Hc & He); [vm_compute; reflexivity | reflexivity..|].
  destruct (Hfail Hs) as (Hp & Ht & _).
  exists r, s'. repeat split; assumption.
Defined.

(** C10: [searchEbay] means to empty the token cache when the search
    answers 401 (its comment says: token expired, clear cache and throw), and
    does so when the body of that answer can be read.  But it reads the body
    before it looks at the status: for a 401 whose body cannot be read (the
    connection drops after the headers) the failure is returned with the
    refused token still in the cache. *)
Theorem searchEbay_401_unread_body_keeps_token :
  (let w := Sample.world (Return Sample.unauthorized_truncated) (Throw NotAnError) in
   exists r s',
     searchEbay "solar phone case" no_options w Sample.warm = (Return r, s') /\
     search_endpoint w = Return Sample.unauthorized_truncated /\
     status Sample.unauthorized_truncated = 401 /\
     success r = false /\ error r = Some "terminated" /\
     cachedToken s' = cachedToken Sample.warm /\ cachedToken s' <> None) /\
  (let w := Sample.world (Return Sample.unauthorized) (Throw NotAnError) in
   exists r s',
     searchEbay "solar phone case" no_options w Sample.warm = (Return r, s') /\
     search_endpoint w = Return Sample.unauthorized /\
     status Sample.unauthorized = 401 /\
     success r = false /\ cachedToken s' = None).
Proof.
  split; intros w; vm_compute; eexists _, _; repeat split; discriminate.
Qed.

End Search.

(** ** The retail search agent *)

Section Agent.

Import Ebay Retail Props.

Variable StringToNumber : string -> number.

Local Abbreviation agent := (runRetailSearchAgent StringToNumber).

(** *** Phase 1 always returns, and asks for no analysis *)

Lemma analysis_requests_app s r :
  is_analysis r = false ->
  analysis_requests {| cachedToken := cachedToken s; issued := issued s ++ [r] |}
  = analysis_requests s.
Proof.
  intros H. unfold analysis_requests. simpl.
  rewrite List.filter_app. simpl. rewrite H. apply app_nil_r.
Qed.

Lemma getAccessToken_asks_no_analysis w s c s1 :
  getAccessToken w s = (c, s1) -> analysis_requests s1 = analysis_requests s.
Proof.
  unfold getAccessToken. run. intros Hrun.
  cases Hrun; injection Hrun as <- <-; try done;
    by rewrite <- (analysis_requests_app s (TokenRequest
         (default "" (env w !! "EBAY_CLIENT_ID"))
         (default "" (env w !! "EBAY_CLIENT_SECRET")))).
Qed.

Lemma searchEbay_returns query options w s :
  exists r s',
    searchEbay query options w s = (Return r, s') /\
    analysis_requests s' = analysis_requests s.
Proof.
  unfold searchEbay. run.
  destruct (getAccessToken w s) as [[tok|e] s1] eqn:Htoken;
    apply getAccessToken_asks_no_analysis in Htoken; rewrite <- Htoken.
  - set (asked := SearchRequest _ _).
    rewrite <- (analysis_requests_app s1 asked eq_refl).
    repeat case_match; simplify_eq; eexists _, _; split; try done.
  - eexists _, _. split; done.
Qed.

Lemma searchSimilarProducts_returns name descr features w s :
  exists r s',
    searchSimilarProducts name descr features w s = (Return r, s') /\
    analysis_requests s' = analysis_requests s.
Proof. apply searchEbay_returns. Qed.

(** *** The branches of the agent *)

Lemma agent_unconfigured request w s :
  isEbayConfigured w = false ->
  agent request w s =
    (Return {| agent_type := "retail_search";
               is_novel := Boolean false;
               confidence := lit 0;
               findings := [];
               summary := Str (getCredentialStatus w);
               truth_scores := scores 0 0 0 0;
               search_query_used := Request.invention_name request;
               timestamp := new_Date w |}, s).
Proof. intros H. unfold runRetailSearchAgent. run. by rewrite H. Qed.

Section Configured.

Variables (request : NoveltyCheckRequest) (w : World) (s s1 : Store).
Variable ebayResult : EbaySearchResult.

Hypothesis Hconfigured : isEbayConfigured w = true.
Hypothesis Hphase1 :
  searchSimilarProducts (Request.invention_name request) (Request.description request)
    (Request.key_features request) w s = (Return ebayResult, s1).

Lemma agent_provider_failed :
  success ebayResult = false ->
  agent request w s =
    (Return {| agent_type := "retail_search";
               is_novel := Boolean false;
               confidence := lit 0;
               findings := [];
               summary := Str ("eBay API error: " +:+ default "undefined" (error ebayResult));
               truth_scores := scores 0 0 0 0;
               search_query_used := searchQuery ebayResult;
               timestamp := new_Date w |}, s1).
Proof.
  intros H. unfold runRetailSearchAgent. run.
  rewrite Hconfigured. simpl. rewrite Hphase1. by rewrite H.
Qed.

Lemma agent_nothing_found :
  success ebayResult = true -> products ebayResult = [] ->
  exists r,
    agent request w s = (Return r, s1) /\
    is_novel r = Boolean true /\ confidence r = lit 0.7 /\ findings r = [] /\
    truth_scores r = scores 0.8 0.7 0.5 0.8 /\
    search_query_used r = searchQuery ebayResult.
Proof.
  intros H Hnone. unfold runRetailSearchAgent. run.
  rewrite Hconfigured. simpl. rewrite Hphase1, H, Hnone. simpl.
  eexists. split; [reflexivity|]. done.
Qed.

Lemma agent_phase2 :
  success ebayResult = true -> products ebayResult <> [] ->
  agent request w s =
    try_catch (analysed StringToNumber request ebayResult (ebayProductToFinding <$> products ebayResult))
              (fun _ => unanalysed ebayResult (ebayProductToFinding <$> products ebayResult))
              w s1.
Proof.
  intros H Hsome. unfold runRetailSearchAgent. run.
  rewrite Hconfigured. simpl. rewrite Hphase1, H. simpl.
  destruct (products ebayResult); done.
Qed.

End Configured.

Lemma unanalysed_eq ebayResult found w s :
  unanalysed ebayResult found w s =
    (Return {| agent_type := "retail_search";
               is_novel := Boolean false;
               confidence := lit 0.3;
               findings := found;
               summary := Str ("Found " +:+ pretty (length found)
                               +:+ " potentially similar products on eBay, but analysis failed. Manual review recommended.");
               truth_scores := scores 0.6 0.5 0.4 0.5;
               search_query_used := searchQuery ebayResult;
               timestamp := new_Date w |}, s).
Proof. reflexivity. Qed.

(** C4: without the eBay credentials the agent returns, not novel, with
    confidence 0 and no findings; its summary is the message of
    [getCredentialStatus], which says that the credentials are not configured
    and names the two variables to set.  The store is the one it started
    from: no request has left the process. *)
Theorem unconfigured_zero_confidence request w s :
  isEbayConfigured w = false ->
  exists r message,
    agent request w s = (Return r, s) /\
    is_novel r = Boolean false /\
    confidence r = lit 0 /\ findings r = [] /\
    summary r = Str message /\ message <> "" /\
    message = getCredentialStatus w /\
    message = "eBay API credentials not configured. "
              +:+ "To enable real eBay product search, add EBAY_CLIENT_ID and EBAY_CLIENT_SECRET to your environment variables. "
              +:+ "Get your free credentials at: https://developer.ebay.com/my/keys".
Proof.
  intros H. rewrite (agent_unconfigured _ _ _ H).
  eexists _, _. split; [reflexivity|]. simpl.
  unfold getCredentialStatus. rewrite H. done.
Qed.

(** C3: when the search succeeds with no product, the agent returns
    [is_novel = true], a confidence below 1 and no findings; the store is the
    one phase 1 left, in which no analysis has been asked for. *)
Theorem no_candidates_weak_novelty request w s ebayResult s1 :
  isEbayConfigured w = true ->
  searchSimilarProducts (Request.invention_name request) (Request.description request)
    (Request.key_features request) w s = (Return ebayResult, s1) ->
  success ebayResult = true -> products ebayResult = [] ->
  exists r q,
    agent request w s = (Return r, s1) /\
    is_novel r = Boolean true /\
    confidence r = Num (Fin q) /\ (q < 1)%Q /\
    findings r = [] /\
    analysis_requests s1 = analysis_requests s.
Proof.
  intros Hconf Hphase1 Hok Hnone.
  destruct (agent_nothing_found _ _ _ _ _ Hconf Hphase1 Hok Hnone)
    as (r & Hrun & Hnovel & Hc & Hf & _).
  exists r, 0.7%Q. repeat split; try done.
  destruct (searchSimilarProducts_returns (Request.invention_name request)
              (Request.description request) (Request.key_features request) w s)
    as (r' & s' & Hrun' & Hlog).
  rewrite Hphase1 in Hrun'. by injection Hrun' as <- <-.
Qed.

(** *** When the analysis fails *)


Lemma agent_returns request w s :
  exists r s', agent request w s = (Return r, s').
Proof.
  destruct (isEbayConfigured w) eqn:Hconf;
    [|rewrite (agent_unconfigured _ _ _ Hconf); eauto].
  destruct (searchSimilarProducts_returns (Request.invention_name request)
              (Request.description request) (Request.key_features request) w s)
    as (ebayResult & s1 & Hphase1 & _).
  destruct (success ebayResult) eqn:Hok;
    [|rewrite (agent_provider_failed _ _ _ _ _ Hconf Hphase1 Hok); eauto].
  destruct (decide (products ebayResult = [])) as [Hnone|Hsome].
  - destruct (agent_nothing_found _ _ _ _ _ Hconf Hphase1 Hok Hnone) as (r & Hrun & _).
    eauto.
  - rewrite (agent_phase2 _ _ _ _ _ Hconf Hphase1 Hok Hsome).
    unfold try_catch.
    destruct (analysed _ _ _ _ w s1) as [[r|e] s2]; [eauto|].
    rewrite unanalysed_eq. eauto.
Qed.

(** *** What the analysis writes into the findings *)

Lemma get_property_field v name x :
  get_property v name = Return x -> x = field v name.
Proof. destruct v; simpl; congruence. Qed.

Lemma mapM_Return {A B} (f : A -> completion B) l k :
  mapM f l = Return k -> Forall2 (fun x y => f x = Return y) l k.
Proof.
  revert k. induction l as [|x l IH]; intros k; simpl.
  - intros [= <-]. constructor.
  - unfold mbind, completion_bind.
    destruct (f x) as [y|] eqn:Hx; [|done].
    destruct (mapM f l) as [k'|]; [|done].
    intros [= <-]. constructor; auto.
Qed.

Lemma analysis_entries_spec v entries :
  analysis_entries v = Return entries ->
  Forall (fun entry =>
            match field v "product_analyses" with
            | Arr elements => snd entry ∈ elements
            | _ => False
            end /\ fst entry = field (snd entry) "item_id") entries.
Proof.
  unfold analysis_entries, mbind, completion_bind.
  destruct (get_property v "product_analyses") as [pa|] eqn:Hpa; [|done].
  apply get_property_field in Hpa. rewrite <- Hpa.
  destruct pa as [| | | | |elements|]; try done;
    try (intros [= <-]; constructor).
  intros H. apply mapM_Return in H. clear Hpa.
  induction H as [|a entry elements entries Hentry _ IH]; constructor.
  - unfold mbind, completion_bind in Hentry.
    destruct (get_property a "item_id") as [key|] eqn:Hkey; [|done].
    injection Hentry as <-. simpl. split; [left|].
    by apply get_property_field.
  - eapply Forall_impl; [exact IH|].
    intros entry' [Hin Hkey']. split; [by right | done].
Qed.

Lemma new_Map_lookup entries key a :
  new_Map entries !! key = Some a -> (Str key, a) ∈ entries.
Proof.
  unfold new_Map.
  cut (forall m : gmap string jsval,
         foldl (fun m entry =>
                  match fst entry with
                  | Str id => <[id := snd entry]> m
                  | _ => m
                  end) m entries !! key = Some a ->
         m !! key = Some a \/ (Str key, a) ∈ entries).
  { intros H Hlookup. destruct (H ∅ Hlookup) as [Hempty|]; [|done].
    by rewrite lookup_empty in Hempty. }
  induction entries as [|[k x] entries IH]; intros m; simpl; [by left|].
  intros H. destruct (IH _ H) as [Hm|Hin]; [|right; by right].
  destruct k as [| | | |id| |]; try by left.
  destruct (decide (id = key)) as [->|Hne].
  - rewrite lookup_insert_eq in Hm. injection Hm as ->. right. left.
  - rewrite lookup_insert_ne in Hm by done. by left.
Qed.

Lemma update_finding_spec m f u :
  update_finding m f = Return u ->
  same_listing f u /\
  (u = f \/
   exists a, m !! item_id (metadata f) = Some a /\
             similarity_score u = field a "similarity_score").
Proof.
  unfold update_finding, mbind, completion_bind.
  destruct (m !! item_id (metadata f)) as [a|] eqn:Ha; simpl;
    [|intros [= <-]; split; [done | by left]].
  destruct (truthy a); [|intros [= <-]; split; [done | by left]].
  destruct (get_property a "similarity_score") as [score|] eqn:Hscore; [|done].
  destruct (get_property a "analysis") as [text|]; [|done].
  intros [= <-]. split; [done|]. right. exists a. split; [done|]. simpl.
  by apply get_property_field.
Qed.

(** A finding after the update either keeps its score, or carries the score
    of a product analysis that names it. *)
Lemma updated_scores v entries found updated :
  analysis_entries v = Return entries ->
  mapM (update_finding (new_Map entries)) found = Return updated ->
  Forall2 (fun f u =>
             same_listing f u /\
             (similarity_score u = similarity_score f \/
              exists a, match field v "product_analyses" with
                        | Arr elements => a ∈ elements
                        | _ => False
                        end /\
                        field a "item_id" = Str (item_id (metadata u)) /\
                        similarity_score u = field a "similarity_score"))
          found updated.
Proof.
  intros Hentries Hupdated.
  apply analysis_entries_spec in Hentries. rewrite Forall_forall in Hentries.
  apply mapM_Return in Hupdated.
  eapply Forall2_impl; [exact Hupdated|].
  intros f u Hu. apply update_finding_spec in Hu as [Hsame [->|(a & Ha & Hscore)]].
  - split; [done | by left].
  - split; [done|]. right. exists a.
    apply new_Map_lookup in Ha. destruct (Hentries _ Ha) as [Hin Hkey].
    simpl in Hin, Hkey. destruct Hsame as (_ & _ & _ & ->). done.
Qed.

Lemma analysed_spec request ebayResult found w s r s' :
  analysed StringToNumber request ebayResult found w s = (Return r, s') ->
  exists v entries updated,
    analysis w = Some v /\
    analysis_entries v = Return entries /\
    mapM (update_finding (new_Map entries)) found = Return updated /\
    Array_sort (by_similarity StringToNumber) updated = Return (findings r) /\
    confidence r = field v "confidence" /\
    truth_scores r = field v "truth_scores".
Proof.
  unfold analysed, analysis. run. intros Hrun.
  destruct (messages_create w) as [[[[v|]|]|]|]; try done. simpl in Hrun.
  destruct (analysis_entries v) as [entries|] eqn:Hentries; [|done].
  destruct (mapM _ found) as [updated|] eqn:Hupdated; [|done].
  destruct (Array_sort _ updated) as [sorted|] eqn:Hsorted; [|done].
  destruct (get_property v "is_novel") as [novel|]; [|done].
  destruct (get_property v "confidence") as [c|] eqn:Hc; [|done].
  destruct (get_property v "summary") as [text|]; [|done].
  destruct (get_property v "truth_scores") as [ts|] eqn:Hts; [|done].
  injection Hrun as <- <-. simpl.
  exists v, entries, updated. repeat split; try done.
  - by apply get_property_field.
  - by apply get_property_field.
Qed.

(** *** The sort *)

Lemma insert_sorted_perm {A} (compareFn : A -> A -> completion number) x sorted sorted' :
  insert_sorted compareFn x sorted = Return sorted' -> sorted' ≡ₚ x :: sorted.
Proof.
  revert sorted'. induction sorted as [|y rest IH]; intros sorted'; simpl.
  - by intros [= <-].
  - unfold mbind, completion_bind.
    destruct (compareFn x y) as [v|]; [|done].
    destruct (is_positive v); [|by intros [= <-]].
    destruct (insert_sorted compareFn x rest) as [rest'|]; [|done].
    intros [= <-]. rewrite (IH rest' eq_refl). apply perm_swap.
Qed.

Lemma Array_sort_perm {A} (compareFn : A -> A -> completion number) l l' :
  Array_sort compareFn l = Return l' -> l' ≡ₚ l.
Proof.
  revert l'. induction l as [|x l IH]; intros l'; simpl.
  - by intros [= <-].
  - unfold mbind, completion_bind.
    destruct (Array_sort compareFn l) as [sorted|]; [|done].
    intros H. apply insert_sorted_perm in H. by rewrite H, (IH sorted eq_refl).
Qed.

Lemma number_leb_total x y :
  x <> NaN -> y <> NaN -> number_leb y x = false -> number_leb x y = true.
Proof.
  destruct x as [|[]|p], y as [|[]|q]; simpl; try done.
  intros _ _ H. apply Qle_bool_iff.
  destruct (Qlt_le_dec p q) as [Hlt|Hle]; [by apply Qlt_le_weak|].
  apply Qle_bool_iff in Hle. congruence.
Qed.

Lemma number_leb_trans x y z :
  number_leb x y = true -> number_leb y z = true -> number_leb x z = true.
Proof.
  destruct x as [|[]|p], y as [|[]|q], z as [|[]|r]; simpl; try done.
  rewrite !Qle_bool_iff. apply Qle_trans.
Qed.

Lemma positive_minus x y :
  x <> NaN -> y <> NaN -> is_positive (minus y x) = negb (number_leb y x).
Proof.
  destruct x as [|[]|p], y as [|[]|q]; simpl; try done.
  intros _ _. f_equal.
  destruct (Qle_bool q p) eqn:H.
  - apply Qle_bool_iff. apply Qle_bool_iff in H. lra.
  - destruct (Qle_bool (q - p) 0) eqn:H'; [|done].
    apply Qle_bool_iff in H'. assert (Hle : (q <= p)%Q) by lra.
    apply Qle_bool_iff in Hle. congruence.
Qed.

Lemma numeric_inv v : numeric v -> exists n, v = Num n /\ n <> NaN.
Proof. destruct v as [| | |[]| | |]; simpl; try done; eauto. Qed.

Lemma by_similarity_numeric a b :
  numeric (similarity_score a) -> numeric (similarity_score b) ->
  exists x y,
    similarity_score a = Num x /\ similarity_score b = Num y /\
    x <> NaN /\ y <> NaN /\
    by_similarity StringToNumber a b = Return (minus y x).
Proof.
  intros (x & Hx & ?)%numeric_inv (y & Hy & ?)%numeric_inv.
  exists x, y. unfold by_similarity. rewrite Hx, Hy. done.
Qed.

Lemma insert_sorted_descending x sorted sorted' :
  numeric (similarity_score x) ->
  Forall (fun f => numeric (similarity_score f)) sorted ->
  descending sorted ->
  insert_sorted (by_similarity StringToNumber) x sorted = Return sorted' ->
  descending sorted'.
Proof.
  intros Hx. revert sorted'.
  induction sorted as [|y rest IH]; intros sorted' Hnum Hsorted; simpl.
  - intros [= <-]. repeat constructor.
  - apply Forall_cons in Hnum as [Hy Hnum].
    apply StronglySorted_inv in Hsorted as [Hrest Hbelow].
    destruct (by_similarity_numeric x y Hx Hy) as (nx & ny & Ex & Ey & ? & ? & ->).
    unfold mbind, completion_bind.
    rewrite positive_minus by done.
    destruct (number_leb ny nx) eqn:Hle; simpl.
    + intros [= <-]. constructor; [by constructor|].
      assert (Hxy : at_least (similarity_score x) (similarity_score y) = true)
        by by rewrite Ex, Ey.
      constructor; [done|].
      eapply Forall_impl; [exact Hbelow|]. intros z. simpl.
      rewrite Ex, Ey. destruct (similarity_score z); try done.
      intros Hz. simpl in *. by eapply number_leb_trans.
    + destruct (insert_sorted _ x rest) as [rest'|] eqn:Hins; [|done].
      intros [= <-]. constructor; [by apply IH|].
      apply insert_sorted_perm in Hins. rewrite Hins. constructor; [|done].
      rewrite Ex, Ey. simpl. by apply number_leb_total.
Qed.

Lemma insert_sorted_stable n x sorted sorted' :
  numeric (similarity_score x) ->
  Forall (fun f => numeric (similarity_score f)) sorted ->
  insert_sorted (by_similarity StringToNumber) x sorted = Return sorted' ->
  List.filter (has_score n) sorted' = List.filter (has_score n) (x :: sorted).
Proof.
  intros Hx. revert sorted'.
  induction sorted as [|y rest IH]; intros sorted' Hnum; simpl.
  - by intros [= <-].
  - apply Forall_cons in Hnum as [Hy Hnum].
    destruct (by_similarity_numeric x y Hx Hy) as (nx & ny & Ex & Ey & ? & ? & ->).
    unfold mbind, completion_bind.
    rewrite positive_minus by done.
    destruct (number_leb ny nx) eqn:Hle; simpl; [by intros [= <-]|].
    destruct (insert_sorted _ x rest) as [rest'|] eqn:Hins; [|done].
    intros [= <-]. simpl. rewrite (IH rest' Hnum eq_refl). simpl.
    destruct (has_score n x) eqn:Hpx; [|done].
    destruct (has_score n y) eqn:Hpy; [|done].
    exfalso. unfold has_score in Hpx, Hpy. rewrite Ex in Hpx. rewrite Ey in Hpy.
    simpl in Hpx, Hpy.
    apply andb_true_iff in Hpx as [Hnx _]. apply andb_true_iff in Hpy as [_ Hyn].
    rewrite (number_leb_trans _ _ _ Hyn Hnx) in Hle. done.
Qed.

Lemma Array_sort_numeric l l' :
  Forall (fun f => numeric (similarity_score f)) l ->
  Array_sort (by_similarity StringToNumber) l = Return l' ->
  descending l' /\ forall n, List.filter (has_score n) l' = List.filter (has_score n) l.
Proof.
  revert l'. induction l as [|x l IH]; intros l' Hnum; simpl.
  - intros [= <-]. split; [constructor | done].
  - apply Forall_cons in Hnum as [Hx Hnum].
    unfold mbind, completion_bind.
    destruct (Array_sort _ l) as [sorted|] eqn:Hsorted; [|done].
    destruct (IH sorted Hnum eq_refl) as [Hdesc Hstable].
    assert (Hnum' : Forall (fun f => numeric (similarity_score f)) sorted)
      by by rewrite (Array_sort_perm _ _ _ Hsorted).
    intros Hins. split.
    + by eapply insert_sorted_descending.
    + intros n. rewrite (insert_sorted_stable n x sorted l' Hx Hnum' Hins).
      simpl. by rewrite Hstable.
Qed.

(** *** The results of the agent, by branch *)

Lemma literal_bounded c o p k x :
  (0 <= c <= 1)%Q -> (0 <= o <= 1)%Q -> (0 <= p <= 1)%Q ->
  (0 <= k <= 1)%Q -> (0 <= x <= 1)%Q ->
  unit_interval (lit c) /\ truth_scores_bounded (scores o p k x).
Proof. intros. repeat split; simpl; tauto. Qed.

Lemma agent_result_cases request w s r s' :
  agent request w s = (Return r, s') ->
  (findings r = [] /\ bounded r /\
   (isEbayConfigured w = true ->
    forall ebayResult s1,
      searchSimilarProducts (Request.invention_name request) (Request.description request)
        (Request.key_features request) w s = (Return ebayResult, s1) ->
      success ebayResult = true -> products ebayResult = [])) \/
  exists ebayResult s1,
    isEbayConfigured w = true /\
    searchSimilarProducts (Request.invention_name request) (Request.description request)
      (Request.key_features request) w s = (Return ebayResult, s1) /\
    success ebayResult = true /\
    let found := ebayProductToFinding <$> products ebayResult in
    (findings r = found /\ confidence r = lit 0.3 /\
     truth_scores r = scores 0.6 0.5 0.4 0.5) \/
    (exists v entries updated,
       analysis w = Some v /\
       analysis_entries v = Return entries /\
       mapM (update_finding (new_Map entries)) found = Return updated /\
       Array_sort (by_similarity StringToNumber) updated = Return (findings r) /\
       confidence r = field v "confidence" /\
       truth_scores r = field v "truth_scores").
Proof.
  intros Hrun.
  destruct (isEbayConfigured w) eqn:Hconf.
  2:{ rewrite (agent_unconfigured _ _ _ Hconf) in Hrun. injection Hrun as <- <-.
      left. split; [done|]. split; [|done].
      split; [|split; [|constructor]]; apply (literal_bounded 0 0 0 0 0); lra. }
  destruct (searchSimilarProducts_returns (Request.invention_name request)
              (Request.description request) (Request.key_features request) w s)
    as (ebayResult & s1 & Hphase1 & _).
  destruct (success ebayResult) eqn:Hok.
  2:{ rewrite (agent_provider_failed _ _ _ _ _ Hconf Hphase1 Hok) in Hrun.
      injection Hrun as <- <-. left. split; [done|]. split.
      - split; [|split; [|constructor]]; apply (literal_bounded 0 0 0 0 0); lra.
      - intros _ e s2. rewrite Hphase1. intros [= <- <-]. congruence. }
  destruct (decide (products ebayResult = [])) as [Hnone|Hsome].
  - destruct (agent_nothing_found _ _ _ _ _ Hconf Hphase1 Hok Hnone)
      as (r' & Hrun' & _ & Hc & Hf & Ht & _).
    rewrite Hrun' in Hrun. injection Hrun as <- <-.
    left. split; [done|]. split.
    + unfold bounded. rewrite Hc, Hf, Ht.
      split; [|split; [|constructor]]; apply (literal_bounded 0.7 0.8 0.7 0.5 0.8); lra.
    + intros _ e s2. rewrite Hphase1. by intros [= <- <-].
  - right. exists ebayResult, s1. repeat split; try done.
    rewrite (agent_phase2 _ _ _ _ _ Hconf Hphase1 Hok Hsome) in Hrun.
    unfold try_catch in Hrun.
    destruct (analysed _ _ _ _ w s1) as [[r'|e] s2] eqn:Hbody.
    + injection Hrun as <- <-. right. by eapply analysed_spec.
    + rewrite unanalysed_eq in Hrun. injection Hrun as <- <-. by left.
Qed.

Lemma created_unscored (listed : list Browse.EbayProduct) :
  Forall (fun f => similarity_score f = lit 0) (ebayProductToFinding <$> listed).
Proof. apply Forall_fmap, Forall_true. done. Qed.

Lemma unscored_descending found :
  Forall (fun f => similarity_score f = lit 0) found -> descending found.
Proof.
  induction 1 as [|f found Hscore Hzero IH]; constructor; [done|].
  eapply Forall_impl; [exact Hzero|].
  intros f' Hscore'. simpl in Hscore'. by rewrite Hscore, Hscore'.
Qed.

Lemma product_analyses_eq w v :
  analysis w = Some v ->
  product_analyses w = match field v "product_analyses" with
                       | Arr elements => elements
                       | _ => []
                       end.
Proof. unfold product_analyses. by intros ->. Qed.

(** The findings after the update, against the analysis of the world. *)
Lemma updated_resolved w v entries (listed : list Browse.EbayProduct) updated :
  analysis w = Some v ->
  analysis_entries v = Return entries ->
  mapM (update_finding (new_Map entries)) (ebayProductToFinding <$> listed) = Return updated ->
  Forall2 same_listing (ebayProductToFinding <$> listed) updated /\
  Forall (fun u => resolved w u \/ similarity_score u = lit 0) updated.
Proof.
  intros Hv Hentries Hupdated.
  pose proof (updated_scores v entries _ updated Hentries Hupdated) as H.
  split; [eapply Forall2_impl; [exact H|]; by intros ? ? []|].
  pose proof (created_unscored listed) as Hzero.
  clear Hupdated. revert H Hzero. generalize (ebayProductToFinding <$> listed) as created.
  intros created H Hzero.
  induction H as [|f u found updated' [_ Hu] _ IH]; [constructor|].
  apply Forall_cons in Hzero as [Hf Hzero].
  constructor; [|by apply IH].
  destruct Hu as [->|(a & Hin & Hid & Hscore)]; [by right|].
  left. exists a. rewrite (product_analyses_eq w v Hv).
  destruct (field v "product_analyses"); done.
Qed.

(** *** Replies that cannot be read, and which analysis a finding gets *)

Lemma get_property_Return v name :
  v <> Null -> v <> Undefined -> get_property v name = Return (field v name).
Proof. by destruct v. Qed.

Lemma mapM_Throw {A B} (f : A -> completion B) l a e :
  a ∈ l -> f a = Throw e -> exists e', mapM f l = Throw e'.
Proof.
  intros Hin Ha. induction l as [|x l IH]; [by apply elem_of_nil in Hin|].
  simpl. unfold mbind, completion_bind.
  apply elem_of_cons in Hin as [<-|Hin].
  - rewrite Ha. eauto.
  - destruct (f x); [|eauto]. destruct (IH Hin) as [e' He'].
    destruct (mapM f l); [discriminate He' | eauto].
Qed.

Lemma analysis_entries_unreadable v :
  Edge.unreadable v -> exists e, analysis_entries v = Throw e.
Proof.
  intros [->|[->|H]]; [simpl; eauto..|].
  destruct v as [| | | | | |properties]; try done.
  unfold analysis_entries, mbind, completion_bind.
  rewrite (get_property_Return (Obj properties)) by done.
  destruct (field (Obj properties) "product_analyses") as [| | | | |elements|];
    try done; eauto.
  destruct H as [H|H];
    eapply (mapM_Throw (fun a => match get_property a "item_id" with
                                 | Return id => Return (id, a)
                                 | Throw e => Throw e
                                 end)); [exact H | reflexivity | exact H | reflexivity].
Qed.

Lemma analysis_entries_eq v elements entries :
  field v "product_analyses" = Arr elements ->
  analysis_entries v = Return entries ->
  entries = (fun a => (field a "item_id", a)) <$> elements.
Proof.
  intros Hpa. unfold analysis_entries, mbind, completion_bind.
  destruct (get_property v "product_analyses") as [pa|] eqn:Hget; [|done].
  apply get_property_field in Hget. rewrite Hget, Hpa.
  intros H. apply mapM_Return in H. clear Hpa Hget.
  induction H as [|a entry elements' entries' Ha _ IH]; [done|].
  rewrite fmap_cons. f_equal; [|exact IH].
  destruct (get_property a "item_id") as [id|] eqn:Hid; [|done].
  injection Ha as <-. by rewrite (get_property_field _ _ _ Hid).
Qed.

Lemma new_Map_app entries entries' :
  new_Map (entries ++ entries') =
  foldl (fun m entry => match fst entry with
                        | Str id => <[id := snd entry]> m
                        | _ => m
                        end) (new_Map entries) entries'.
Proof. unfold new_Map. apply foldl_app. Qed.

Lemma analysis_entries_of w v entries :
  analysis w = Some v -> analysis_entries v = Return entries ->
  entries = (fun a => (field a "item_id", a)) <$> product_analyses w.
Proof.
  intros Hv Hentries. rewrite (product_analyses_eq w v Hv).
  destruct (field v "product_analyses") as [| | | | |elements|] eqn:Hpa;
    [..|by eapply analysis_entries_eq|];
    revert Hentries; unfold analysis_entries, mbind, completion_bind;
    (destruct (get_property v "product_analyses") as [pa|] eqn:Hget; [|done]);
    apply get_property_field in Hget; rewrite Hget, Hpa; intros H; by simplify_eq.
Qed.

(** The analysis that the map holds for an item is the last one naming it. *)
Lemma new_Map_of_analyses elements key :
  match new_Map ((fun a => (field a "item_id", a)) <$> elements) !! key with
  | Some a =>
      exists before after,
        elements = (before ++ a :: after)%list /\
        field a "item_id" = Str key /\
        Forall (fun b => field b "item_id" <> Str key) after
  | None => Forall (fun b => field b "item_id" <> Str key) elements
  end.
Proof.
  induction elements as [|b elements IH] using rev_ind.
  - unfold new_Map. simpl. rewrite lookup_empty. constructor.
  - rewrite fmap_app, new_Map_app. simpl.
    assert (Hkept : field b "item_id" <> Str key ->
              match new_Map ((fun a => (field a "item_id", a)) <$> elements) !! key with
              | Some a =>
                  exists before after,
                    (elements ++ [b])%list = (before ++ a :: after)%list /\
                    field a "item_id" = Str key /\
                    Forall (fun b => field b "item_id" <> Str key) after
              | None => Forall (fun b => field b "item_id" <> Str key) (elements ++ [b])
              end).
    { intros Hb. destruct (new_Map _ !! key) as [a|].
      - destruct IH as (before & after & -> & Ha & Hafter).
        exists before, (after ++ [b])%list.
        split; [by rewrite <- app_assoc|]. split; [done|].
        apply Forall_app. split; [done|]. by repeat constructor.
      - apply Forall_app. split; [done|]. by repeat constructor. }
    destruct (field b "item_id") as [| | | |id| |] eqn:Hid; try (by apply Hkept).
    destruct (decide (id = key)) as [->|Hne].
    + rewrite lookup_insert_eq. exists elements, []. split; [done|]. split; [done|].
      constructor.
    + rewrite lookup_insert_ne by done. apply Hkept. congruence.
Qed.

(** After the update every finding has the score that the analyses of the
    world give it. *)
Lemma updated_scored w v entries (listed : list Browse.EbayProduct) updated :
  analysis w = Some v ->
  analysis_entries v = Return entries ->
  mapM (update_finding (new_Map entries)) (ebayProductToFinding <$> listed) = Return updated ->
  Forall (scored_by (product_analyses w)) updated.
Proof.
  intros Hv Hentries Hupdated.
  rewrite (analysis_entries_of w v entries Hv Hentries) in Hupdated.
  apply mapM_Return in Hupdated.
  pose proof (created_unscored listed) as Hzero.
  revert Hupdated Hzero. generalize (ebayProductToFinding <$> listed) as created.
  intros created H Hzero.
  induction H as [|f u found updated' Hu _ IH]; [constructor|].
  apply Forall_cons in Hzero as [Hf Hzero]. constructor; [|by apply IH].
  pose proof (new_Map_of_analyses (product_analyses w) (item_id (metadata f))) as Hlast.
  unfold update_finding in Hu.
  destruct (new_Map _ !! item_id (metadata f)) as [a|]; simpl in Hu.
  - destruct Hlast as (before & after & Hsplit & Ha & Hafter).
    destruct a as [| | | | | |properties]; try done. simpl in Hu.
    injection Hu as <-. left. by exists before, (Obj properties), after.
  - injection Hu as <-. by right.
Qed.

(** *** The branch that adopts the analysis, and the others *)

Lemma agent_branches request w s r s' :
  agent request w s = (Return r, s') ->
  (~ analysis_adopted StringToNumber request w s /\
   bounded r /\ Forall (fun f => similarity_score f = lit 0) (findings r)) \/
  exists ebayResult s1,
    isEbayConfigured w = true /\
    searchSimilarProducts (Request.invention_name request) (Request.description request)
      (Request.key_features request) w s = (Return ebayResult, s1) /\
    success ebayResult = true /\ products ebayResult <> [] /\
    analysed StringToNumber request ebayResult (ebayProductToFinding <$> products ebayResult)
      w s1 = (Return r, s').
Proof.
  intros Hrun.
  destruct (isEbayConfigured w) eqn:Hconf.
  2:{ rewrite (agent_unconfigured _ _ _ Hconf) in Hrun. injection Hrun as <- <-.
      left. split; [intros (? & ? & ? & ? & Hconf' & _); congruence|]. split; [|constructor].
      split; [|split; [|constructor]]; apply (literal_bounded 0 0 0 0 0); lra. }
  destruct (searchSimilarProducts_returns (Request.invention_name request)
              (Request.description request) (Request.key_features request) w s)
    as (ebayResult & s1 & Hphase1 & _).
  destruct (success ebayResult) eqn:Hok.
  2:{ rewrite (agent_provider_failed _ _ _ _ _ Hconf Hphase1 Hok) in Hrun.
      injection Hrun as <- <-. left. split; [|split; [|constructor]].
      - intros (e & s2 & _ & _ & _ & Hphase1' & Hok' & _).
        rewrite Hphase1 in Hphase1'. injection Hphase1' as <- <-. congruence.
      - split; [|split; [|constructor]]; apply (literal_bounded 0 0 0 0 0); lra. }
  destruct (decide (products ebayResult = [])) as [Hnone|Hsome].
  - destruct (agent_nothing_found _ _ _ _ _ Hconf Hphase1 Hok Hnone)
      as (r' & Hrun' & _ & Hc & Hf & Ht & _).
    rewrite Hrun' in Hrun. injection Hrun as <- <-.
    left. split; [|split].
    + intros (e & s2 & _ & _ & _ & Hphase1' & _ & Hsome' & _).
      rewrite Hphase1 in Hphase1'. by injection Hphase1' as <- <-.
    + unfold bounded. rewrite Hc, Hf, Ht.
      split; [|split; [|constructor]]; apply (literal_bounded 0.7 0.8 0.7 0.5 0.8); lra.
    + rewrite Hf. constructor.
  - rewrite (agent_phase2 _ _ _ _ _ Hconf Hphase1 Hok Hsome) in Hrun.
    unfold try_catch in Hrun.
    destruct (analysed _ _ _ _ w s1) as [[r'|e] s2] eqn:Hbody.
    + injection Hrun as <- <-. right. by exists ebayResult, s1.
    + rewrite unanalysed_eq in Hrun. injection Hrun as <- <-. left. split; [|split].
      * intros (e' & s3 & r' & s4 & _ & Hphase1' & _ & _ & Hbody').
        rewrite Hphase1 in Hphase1'. injection Hphase1' as <- <-. congruence.
      * split; [|split]; [apply (literal_bounded 0.3 0.6 0.5 0.4 0.5); lra..|].
        eapply Forall_impl; [apply created_unscored|]. intros f ->. simpl. lra.
      * apply created_unscored.
Qed.

(** Adoption needs a reply that the agent can read. *)
Lemma adopted_readable request w s :
  analysis_adopted StringToNumber request w s ->
  isEbayConfigured w = true /\ exists v, analysis w = Some v /\ ~ Edge.unreadable v.
Proof.
  intros (ebayResult & s1 & r & s' & Hconf & _ & _ & _ & Hbody). split; [done|].
  apply analysed_spec in Hbody as (v & entries & _ & Hv & Hentries & _).
  exists v. split; [done|]. intros Hbad.
  destruct (analysis_entries_unreadable v Hbad) as [e He]. congruence.
Qed.

(** What an adopted analysis puts into the result. *)
Lemma adopted_result request w s r s' :
  agent request w s = (Return r, s') ->
  analysis_adopted StringToNumber request w s ->
  exists v,
    analysis w = Some v /\
    confidence r = field v "confidence" /\
    truth_scores r = field v "truth_scores" /\
    Forall (scored_by (product_analyses w)) (findings r).
Proof.
  intros Hrun Hadopted.
  destruct (agent_branches _ _ _ _ _ Hrun)
    as [[Hnot _]|(ebayResult & s1 & _ & _ & _ & _ & Hbody)]; [done|].
  apply analysed_spec in Hbody
    as (v & entries & updated & Hv & Hentries & Hupdated & Hsorted & Hc & Ht).
  exists v. repeat split; try done.
  rewrite (Array_sort_perm _ _ _ Hsorted).
  by eapply updated_scored.
Qed.

(** *** The claims about the agent *)


(** C5, amended: the confidence, the four truth scores and every
    similarity score of a result lie between 0 and 1 on every branch where
    the agent writes them itself, whatever the language model would say:
    without credentials, when the search fails, when it finds nothing, when
    the analysis fails (no reply that parses, or one that cannot be read).
    On the branch that adopts the analysis the result holds the confidence
    and the truth scores of the reply as they are, and the scores its product
    analyses give the findings; they lie between 0 and 1 when those of the
    analysis do.  The agent does not check. *)
Theorem result_bounded_when_analysis_bounded request w s r s' :
  agent request w s = (Return r, s') ->
  (~ analysis_adopted StringToNumber request w s -> bounded r) /\
  (isEbayConfigured w = false -> bounded r) /\
  (forall ebayResult s1,
     searchSimilarProducts (Request.invention_name request) (Request.description request)
       (Request.key_features request) w s = (Return ebayResult, s1) ->
     success ebayResult = false \/ products ebayResult = [] -> bounded r) /\
  (analysis w = None \/ (exists v, analysis w = Some v /\ Edge.unreadable v) -> bounded r) /\
  (analysis_adopted StringToNumber request w s ->
   exists v,
     analysis w = Some v /\
     confidence r = field v "confidence" /\
     truth_scores r = field v "truth_scores" /\
     Forall (scored_by (product_analyses w)) (findings r)) /\
  (analysis_bounded w -> bounded r).
Proof.
  intros Hrun.
  assert (Hself : ~ analysis_adopted StringToNumber request w s -> bounded r).
  { intros Hnot. destruct (agent_branches _ _ _ _ _ Hrun)
      as [(_ & Hb & _)|(ebayResult & s1 & ? & ? & ? & ? & ?)]; [done|].
    destruct Hnot. by exists ebayResult, s1, r, s'. }
  split; [exact Hself|]. split; [|split; [|split; [|split]]].
  - intros Hconf. apply Hself. intros [Hconf' _]%adopted_readable. congruence.
  - intros ebayResult s1 Hphase1 Hnone. apply Hself.
    intros (e & s2 & _ & _ & _ & Hphase1' & Hok & Hsome & _).
    rewrite Hphase1 in Hphase1'. injection Hphase1' as <- <-.
    destruct Hnone; congruence.
  - intros Hfailed. apply Hself. intros [_ (v & Hv & Hreadable)]%adopted_readable.
    destruct Hfailed as [Hnone|(v' & Hv' & Hbad)]; [congruence|].
    rewrite Hv in Hv'. injection Hv' as <-. done.
  - by apply (adopted_result _ _ _ _ _ Hrun).
  - intros [Hanalysis Hscores].
    destruct (agent_branches _ _ _ _ _ Hrun)
      as [(_ & Hb & _)|(ebayResult & s1 & _ & _ & _ & _ & Hbody)]; [done|].
    apply analysed_spec in Hbody
      as (v & entries & updated & Hv & Hentries & Hupdated & Hsorted & Hc & Ht).
    destruct (Hanalysis v Hv) as [Hcb Htb].
    unfold bounded. rewrite Hc, Ht. split; [done|]. split; [done|].
    rewrite (Array_sort_perm _ _ _ Hsorted).
    destruct (updated_resolved w v entries _ updated Hv Hentries Hupdated) as [_ Hres].
    eapply Forall_impl; [exact Hres|].
    intros u [(a & Hin & _ & ->)| ->]; [|simpl; lra].
    rewrite Forall_forall in Hscores. by apply Hscores.
Qed.

(** C2, amended: every finding that is returned carries either the
    similarity score of a product analysis of the language model that names
    its item, or the score 0 it was created with, and no product of phase 1
    is left out for want of a score: the items of the findings are those of
    the products.  Which of the two is settled: when the agent adopts the
    analysis (the reply is one it can read), a finding that a product analysis
    names carries the score of the last analysis that names it, and a finding
    that none names keeps the 0; when the agent does not adopt the analysis,
    every finding keeps the 0. *)
Theorem findings_resolved_or_placeholder request w s r s' :
  agent request w s = (Return r, s') ->
  Forall (fun f => resolved w f \/ similarity_score f = lit 0) (findings r) /\
  (forall ebayResult s1,
     isEbayConfigured w = true ->
     searchSimilarProducts (Request.invention_name request) (Request.description request)
       (Request.key_features request) w s = (Return ebayResult, s1) ->
     success ebayResult = true ->
     (fun f => item_id (metadata f)) <$> findings r ≡ₚ Browse.itemId <$> products ebayResult) /\
  (analysis_adopted StringToNumber request w s ->
   (exists v, analysis w = Some v /\ ~ Edge.unreadable v) /\
   Forall (scored_by (product_analyses w)) (findings r)) /\
  (~ analysis_adopted StringToNumber request w s ->
   Forall (fun f => similarity_score f = lit 0) (findings r)).
Proof.
  intros Hrun.
  assert (Hitems : forall (listed : list Browse.EbayProduct) updated,
            Forall2 same_listing (ebayProductToFinding <$> listed) updated ->
            (fun f => item_id (metadata f)) <$> updated = Browse.itemId <$> listed).
  { intros listed updated H. revert listed H.
    induction updated as [|u updated IH]; intros [|p listed] H; inversion H; subst; [done|].
    simpl. f_equal; [|by apply IH].
    match goal with Hs : same_listing _ u |- _ => destruct Hs as (_ & _ & _ & ->) end.
    done. }
  split; [|split; [|split]].
  - destruct (agent_result_cases _ _ _ _ _ Hrun)
      as [(Hf & _ & _)|(ebayResult & s1 & _ & _ & _ & Hcases)];
      [rewrite Hf; constructor|].
    simpl in Hcases. destruct Hcases as [(Hf & _ & _)|Hadopted].
    + rewrite Hf. eapply Forall_impl; [apply created_unscored|]. intros f ?. by right.
    + destruct Hadopted as (v & entries & updated & Hv & Hentries & Hupdated & Hsorted & _).
      destruct (updated_resolved w v entries _ updated Hv Hentries Hupdated) as [_ Hres].
      by rewrite (Array_sort_perm _ _ _ Hsorted).
  - intros e s2 Hconf Hphase1 Hok.
    destruct (agent_result_cases _ _ _ _ _ Hrun)
      as [(Hf & _ & Hnone)|(ebayResult & s1 & _ & Hphase1' & _ & Hcases)].
    { by rewrite Hf, (Hnone Hconf e s2 Hphase1 Hok). }
    rewrite Hphase1 in Hphase1'. injection Hphase1' as <- <-.
    simpl in Hcases. destruct Hcases as [(Hf & _ & _)|Hadopted].
    + rewrite Hf, (Hitems (products e)); [done|].
      apply Forall_Forall2_diag, Forall_true. done.
    + destruct Hadopted as (v & entries & updated & Hv & Hentries & Hupdated & Hsorted & _).
      destruct (updated_resolved w v entries _ updated Hv Hentries Hupdated) as [Hsame _].
      by rewrite (Array_sort_perm _ _ _ Hsorted), (Hitems _ updated Hsame).
  - intros Hadopted. split; [by destruct (adopted_readable _ _ _ Hadopted)|].
    destruct (adopted_result _ _ _ _ _ Hrun Hadopted) as (v & _ & _ & _ & Hscored). done.
  - intros Hnot. destruct (agent_branches _ _ _ _ _ Hrun)
      as [(_ & _ & Hzero)|(ebayResult & s1 & ? & ? & ? & ? & ?)]; [done|].
    destruct Hnot. by exists ebayResult, s1, r, s'.
Qed.

(** C9, amended: when every similarity score of the product analyses of
    the language model is a number, the findings of a result come highest
    score first, and findings with the same score keep the order of the
    products of phase 1: the findings are those products, updated and then
    sorted without a change among equals. *)
Theorem findings_sorted_when_scores_numeric request w s r s' :
  agent request w s = (Return r, s') ->
  analysis_numeric w ->
  descending (findings r) /\
  forall ebayResult s1,
    isEbayConfigured w = true ->
    searchSimilarProducts (Request.invention_name request) (Request.description request)
      (Request.key_features request) w s = (Return ebayResult, s1) ->
    success ebayResult = true ->
    exists updated,
      Forall2 same_listing (ebayProductToFinding <$> products ebayResult) updated /\
      findings r ≡ₚ updated /\
      forall n, List.filter (has_score n) (findings r) = List.filter (has_score n) updated.
Proof.
  intros Hrun Hnumeric.
  destruct (agent_result_cases _ _ _ _ _ Hrun)
    as [(Hf & _ & Hnone)|(ebayResult & s1 & _ & Hphase1 & _ & Hcases)].
  { rewrite Hf. split; [constructor|].
    intros e s2 Hconf Hphase1 Hok. exists []. rewrite (Hnone Hconf e s2 Hphase1 Hok).
    repeat split; constructor. }
  simpl in Hcases. destruct Hcases as [(Hf & _ & _)|Hadopted].
  - rewrite Hf. split.
    + apply unscored_descending, created_unscored.
    + intros e s2 _. rewrite Hphase1. intros [= <- <-] _.
      exists (ebayProductToFinding <$> products ebayResult).
      repeat split; [apply Forall_Forall2_diag, Forall_true|]; done.
  - destruct Hadopted as (v & entries & updated & Hv & Hentries & Hupdated & Hsorted & _).
    destruct (updated_resolved w v entries _ updated Hv Hentries Hupdated) as [Hsame Hres].
    assert (Hnum : Forall (fun f => numeric (similarity_score f)) updated).
    { eapply Forall_impl; [exact Hres|].
      intros u [(a & Hin & _ & ->)| ->]; [|done].
      unfold analysis_numeric in Hnumeric. rewrite Forall_forall in Hnumeric.
      by apply Hnumeric. }
    destruct (Array_sort_numeric _ _ Hnum Hsorted) as [Hdesc Hstable].
    split; [done|].
    intros e s2 _. rewrite Hphase1. intros [= <- <-] _.
    exists updated. repeat split; try done. by eapply Array_sort_perm.
Qed.

End Agent.

(** ** The agent on sample worlds *)

Section Samples.

Import Ebay Retail Props.

Lemma unconfigured_zero_confidence_witness :
  isEbayConfigured Sample.bare_world = false /\
  exists r message,
    runRetailSearchAgent Sample.no_numeric_strings Sample.invention Sample.bare_world Sample.cold
      = (Return r, Sample.cold) /\
    confidence r = lit 0 /\ findings r = [] /\
    summary r = Str message /\ message <> "" /\
    message = getCredentialStatus Sample.bare_world /\
    String.prefix "eBay API credentials not configured." message = true.
Proof.
  split; [reflexivity|].
  destruct (unconfigured_zero_confidence Sample.no_numeric_strings Sample.invention
              Sample.bare_world Sample.cold eq_refl)
    as (r & message & Hrun & _ & Hc & Hf & Hs & Hm & Hstatus & Htext).
  exists r, message. split; [exact Hrun|]. split; [exact Hc|]. split; [exact Hf|].
  split; [exact Hs|]. split; [exact Hm|]. split; [exact Hstatus|].
  rewrite Htext. reflexivity.
Defined.

Lemma no_candidates_weak_novelty_witness :
  let w := Sample.world (Return (Sample.found [])) (Throw NotAnError) in
  exists ebayResult s1,
    isEbayConfigured w = true /\
    searchSimilarProducts "Solar phone case"
      "A phone case that charges the phone from sunlight" (Some ["solar panel"; "battery"])
      w Sample.cold = (Return ebayResult, s1) /\
    success ebayResult = true /\ products ebayResult = [] /\
    exists r q,
      runRetailSearchAgent Sample.no_numeric_strings Sample.invention w Sample.cold = (Return r, s1) /\
      is_novel r = Boolean true /\
      confidence r = Num (Fin q) /\ (q < 1)%Q /\
      findings r = [] /\
      analysis_requests s1 = analysis_requests Sample.cold.
Proof.
  intros w. eexists _, _.
  assert (Hconf : isEbayConfigured w = true) by (vm_compute; reflexivity).
  assert (Hphase1 : searchSimilarProducts "Solar phone case"
      "A phone case that charges the phone from sunlight" (Some ["solar panel"; "battery"])
      w Sample.cold = _) by (vm_compute; reflexivity).
  split; [exact Hconf|]. split; [exact Hphase1|]. split; [reflexivity|]. split; [reflexivity|].
  apply (no_candidates_weak_novelty Sample.no_numeric_strings Sample.invention w Sample.cold _ _ Hconf Hphase1);
    reflexivity.
Defined.

Local Abbreviation agent := (runRetailSearchAgent Sample.no_numeric_strings).

Lemma shop_configured reply : isEbayConfigured (Sample.shop reply) = true.
Proof. vm_compute. reflexivity. Qed.

Lemma shop_phase1 reply :
  searchSimilarProducts "Solar phone case"
    "A phone case that charges the phone from sunlight" (Some ["solar panel"; "battery"])
    (Sample.shop reply) Sample.cold
  = (Return {| success := true; products := Sample.two_listings; total := 2;
               searchQuery := "solar phone case panel battery"; error := None |},
     {| cachedToken := Some {| token := "v^1.1#fresh"; expiresAt := 1700007200000 |};
        issued := [TokenRequest "client" "secret";
                   SearchRequest "v^1.1#fresh"
                     [("q", "solar phone case panel battery"); ("limit", "15");
                      ("offset", "0")]] |}).
Proof. vm_compute. reflexivity. Qed.


Lemma sound_answer_bounded : analysis_bounded (Sample.shop Sample.sound_answer).
Proof.
  split.
  - intros v [= <-]. repeat split; simpl; lra.
  - repeat constructor; simpl; lra.
Qed.

Lemma result_bounded_when_analysis_bounded_witness :
  (let w := Sample.shop Sample.sound_answer in
   analysis_bounded w /\
   exists r s', agent Sample.invention w Sample.cold = (Return r, s') /\ bounded r) /\
  (let w := Sample.shop Sample2.null_answer in
   ~ analysis_bounded w /\ Edge.unreadable Null /\
   exists r s', agent Sample.invention w Sample.cold = (Return r, s') /\ bounded r).
Proof.
  split; intros w.
  - split; [exact sound_answer_bounded|].
    destruct (agent_returns Sample.no_numeric_strings Sample.invention w Sample.cold)
      as (r & s' & Hrun).
    exists r, s'. split; [exact Hrun|].
    destruct (result_bounded_when_analysis_bounded _ _ _ _ _ _ Hrun)
      as (_ & _ & _ & _ & _ & Hbounded).
    exact (Hbounded sound_answer_bounded).
  - assert (Hbad : Edge.unreadable Null) by (left; reflexivity).
    split; [intros [Hanalysis _]; destruct (Hanalysis Null eq_refl) as [Hc _]; exact Hc|].
    split; [exact Hbad|].
    destruct (agent_returns Sample.no_numeric_strings Sample.invention w Sample.cold)
      as (r & s' & Hrun).
    exists r, s'. split; [exact Hrun|].
    destruct (result_bounded_when_analysis_bounded _ _ _ _ _ _ Hrun)
      as (_ & _ & _ & Hfailed & _).
    apply Hfailed. right. exists Null. split; [reflexivity | exact Hbad].
Defined.

(** C5 as stated fails: a confidence of 1.5 in the answer of the language
    model is the confidence of the result. *)
Lemma analysis_confidence_adopted_unchecked :
  exists r s',
    agent Sample.invention (Sample.shop Sample.overconfident_answer) Sample.cold
      = (Return r, s') /\
    confidence r = Num (Fin 1.5) /\
    ~ bounded r.
Proof.
  eexists _, _. split; [vm_compute; reflexivity|]. split; [reflexivity|].
  intros [Hc _]. simpl in Hc. lra.
Qed.

Lemma sound_answer_adopted :
  analysis_adopted Sample.no_numeric_strings Sample.invention
    (Sample.shop Sample.sound_answer) Sample.cold.
Proof.
  eexists _, _, _, _. split; [apply shop_configured|]. split; [apply shop_phase1|].
  split; [reflexivity|]. split; [discriminate|]. vm_compute. reflexivity.
Qed.

Lemma findings_resolved_or_placeholder_witness :
  let w := Sample.shop Sample.sound_answer in
  analysis_adopted Sample.no_numeric_strings Sample.invention w Sample.cold /\
  exists r s',
    agent Sample.invention w Sample.cold = (Return r, s') /\
    Forall (fun f => resolved w f \/ similarity_score f = lit 0) (findings r) /\
    (fun f => item_id (metadata f)) <$> findings r ≡ₚ ["110"; "220"] /\
    Forall (scored_by [Sample.product_analysis "110" 0.4; Sample.product_analysis "220" 0.9])
           (findings r).
Proof.
  intros w. split; [exact sound_answer_adopted|].
  destruct (agent_returns Sample.no_numeric_strings Sample.invention w Sample.cold)
    as (r & s' & Hrun).
  exists r, s'. split; [exact Hrun|].
  destruct (findings_resolved_or_placeholder _ _ _ _ _ _ Hrun)
    as (Hres & Hitems & Hadopted & _).
  split; [exact Hres|].
  split; [exact (Hitems _ _ (shop_configured _) (shop_phase1 _) eq_refl)|].
  destruct (Hadopted sound_answer_adopted) as [_ Hscored]. exact Hscored.
Defined.

(** C2 as stated fails: when the language model does not answer, both
    findings are returned, with a score that no analysis has produced. *)
Lemma unscored_findings_exposed :
  let w := Sample.shop Sample.no_answer in
  exists r s',
    agent Sample.invention w Sample.cold = (Return r, s') /\
    length (findings r) = 2%nat /\
    Forall (fun f => similarity_score f = lit 0 /\ ~ resolved w f) (findings r).
Proof.
  intros w. eexists _, _. split; [vm_compute; reflexivity|]. split; [reflexivity|].
  repeat constructor; intros (a & Hin & _); inversion Hin.
Qed.

Lemma sound_answer_numeric : analysis_numeric (Sample.shop Sample.sound_answer).
Proof. repeat constructor. Qed.

Lemma findings_sorted_when_scores_numeric_witness :
  let w := Sample.shop Sample.sound_answer in
  analysis_numeric w /\
  exists r s',
    agent Sample.invention w Sample.cold = (Return r, s') /\
    descending (findings r) /\
    exists updated,
      Forall2 same_listing (ebayProductToFinding <$> Sample.two_listings) updated /\
      findings r ≡ₚ updated /\
      forall n, List.filter (has_score n) (findings r) = List.filter (has_score n) updated.
Proof.
  intros w. split; [exact sound_answer_numeric|].
  destruct (agent_returns Sample.no_numeric_strings Sample.invention w Sample.cold)
    as (r & s' & Hrun).
  exists r, s'. split; [exact Hrun|].
  destruct (findings_sorted_when_scores_numeric _ _ _ _ _ _ Hrun sound_answer_numeric)
    as [Hdesc Hstable].
  split; [exact Hdesc|].
  exact (Hstable _ _ (shop_configured _) (shop_phase1 _) eq_refl).
Defined.

(** C9 as stated fails: with no similarity score for the first product in
    an answer that is adopted, the first finding has no score at all and
    stays in front of one that scores 0.9. *)
Lemma findings_unsorted_when_score_missing :
  exists r s' first second,
    agent Sample.invention (Sample.shop Sample.unscored_answer) Sample.cold
      = (Return r, s') /\
    confidence r = lit 0.8 /\
    findings r = [first; second] /\
    similarity_score first = Undefined /\
    similarity_score second = lit 0.9 /\
    ~ descending (findings r).
Proof.
  eexists _, _, _, _. split; [vm_compute; reflexivity|].
  repeat split. intros Hdesc.
  apply StronglySorted_inv in Hdesc as [_ Hfirst].
  apply Forall_cons in Hfirst as [Hfirst _]. discriminate Hfirst.
Qed.

End Samples.

(** ** The search cache *)

Section Cache.

Import SearchCache.

Lemma filter_partition_length {A} (f : A -> bool) (l : list A) :
  Z.of_nat (length l) - Z.of_nat (length (List.filter (fun x => negb (f x)) l))
  = Z.of_nat (length (List.filter f l)).
Proof.
  induction l as [|x l IH]; [done|]. simpl. destruct (f x); simpl; lia.
Qed.

Lemma filter_filter_same {A} (f : A -> bool) (l : list A) :
  List.filter f (List.filter f l) = List.filter f l.
Proof.
  induction l as [|x l IH]; [done|]. simpl.
  destruct (f x) eqn:H; [|done]. simpl. by rewrite H, IH.
Qed.

Lemma filter_none {A} (f : A -> bool) (l : list A) :
  List.filter f (List.filter (fun x => negb (f x)) l) = [].
Proof.
  induction l as [|x l IH]; [done|]. simpl.
  destruct (f x) eqn:H; [done|]. simpl. by rewrite H.
Qed.

Lemma expired_spec now r :
  expired now r = true <-> exists e, expires_at r = Some e /\ e < now.
Proof.
  unfold expired. destruct (expires_at r) as [e|].
  - rewrite Z.ltb_lt. split; [eauto|]. by intros (? & [= <-] & ?).
  - split; [done|]. by intros (? & ? & _).
Qed.

(** C6: [cleanup_expired_cache] deletes exactly the entries whose
    [expires_at] is not null and is earlier than now: what remains is the
    table without them, every other row as it was and where it was; it returns
    how many it deleted; run again at once, it deletes nothing.  (The count
    is an [INTEGER]: the statement is for at most 2147483647 expired rows.) *)
Theorem cleanup_expired_cache_exact (now : Z) (t : table) :
  Z.of_nat (length (List.filter (expired now) t)) <= INTEGER_MAX ->
  exists deleted_count remaining,
    cleanup_expired_cache now t = (inr deleted_count, remaining) /\
    remaining = List.filter (fun r => negb (expired now r)) t /\
    (forall r, r ∈ remaining <->
               r ∈ t /\ ~ (exists e, expires_at r = Some e /\ e < now)) /\
    (forall r, r ∈ t -> expires_at r = None -> r ∈ remaining) /\
    deleted_count = Z.of_nat (length (List.filter (expired now) t)) /\
    deleted_count = Z.of_nat (length t) - Z.of_nat (length remaining) /\
    cleanup_expired_cache now remaining = (inr 0, remaining).
Proof.
  intros Hfits. unfold cleanup_expired_cache.
  rewrite filter_partition_length.
  destruct (Z.leb_spec (Z.of_nat (length (List.filter (expired now) t))) INTEGER_MAX);
    [|lia].
  eexists _, _. split; [reflexivity|]. split; [reflexivity|].
  assert (Hin : forall r, r ∈ List.filter (fun r => negb (expired now r)) t <->
                          r ∈ t /\ ~ (exists e, expires_at r = Some e /\ e < now)).
  { intros r. rewrite !list_elem_of_In, List.filter_In, <- expired_spec.
    destruct (expired now r); simpl; intuition congruence. }
  split; [exact Hin|]. split.
  { intros r Hr Hnull. apply Hin. split; [done|]. intros (e & He & _). congruence. }
  split; [reflexivity|]. split; [by rewrite filter_partition_length|].
  rewrite filter_partition_length, filter_none, filter_filter_same. done.
Qed.

Lemma cleanup_expired_cache_exact_witness :
  Z.of_nat (length (List.filter (expired 1000) Sample.three_rows)) <= INTEGER_MAX /\
  exists deleted_count remaining,
    cleanup_expired_cache 1000 Sample.three_rows = (inr deleted_count, remaining) /\
    remaining = [Sample.cached "2" "patent:solar" patent None;
                 Sample.cached "3" "web:solar" web (Some 5000)] /\
    deleted_count = 1 /\
    cleanup_expired_cache 1000 remaining = (inr 0, remaining).
Proof.
  assert (Hfits : Z.of_nat (length (List.filter (expired 1000) Sample.three_rows))
                  <= INTEGER_MAX) by (vm_compute; discriminate).
  split; [exact Hfits|].
  destruct (cleanup_expired_cache_exact 1000 Sample.three_rows Hfits)
    as (n & remaining & Hrun & Hremaining & _ & _ & Hcount & _ & Hagain).
  exists n, remaining. split; [exact Hrun|].
  split; [exact Hremaining|]. split; [exact Hcount | exact Hagain].
Defined.

(** *** One entry for a fingerprint *)

Variable fingerprint : search_type -> jsval -> string.

Lemma NoDup_fmap_filter {A B} (f : A -> B) (p : A -> bool) (l : list A) :
  NoDup (f <$> l) -> NoDup (f <$> List.filter p l).
Proof.
  induction l as [|x l IH]; [done|]. simpl.
  intros [Hx Hl]%NoDup_cons. destruct (p x); [|by apply IH].
  simpl. apply NoDup_cons. split; [|by apply IH].
  intros (y & Hy & Hin)%list_elem_of_fmap. apply Hx.
  apply list_elem_of_fmap. exists y. split; [done|].
  apply list_elem_of_In. apply list_elem_of_In, List.filter_In in Hin. tauto.
Qed.

Lemma NoDup_fmap_same {A B} (f : A -> B) (l : list A) x y :
  NoDup (f <$> l) -> x ∈ l -> y ∈ l -> f x = f y -> x = y.
Proof.
  induction l as [|z l IH]; [by intros _ ?%elem_of_nil|]. simpl.
  intros [Hz Hl]%NoDup_cons [->|Hx]%elem_of_cons [->|Hy]%elem_of_cons Heq; try done.
  - destruct Hz. rewrite Heq. by apply list_elem_of_fmap_2.
  - destruct Hz. rewrite <- Heq. by apply list_elem_of_fmap_2.
  - by apply IH.
Qed.

Lemma consistent_filter (p : row -> bool) (t : table) :
  consistent t -> consistent (List.filter p t).
Proof.
  intros (Hh & Hi & Hw). repeat split; try by apply NoDup_fmap_filter.
  rewrite Forall_forall in Hw. apply Forall_forall. intros r Hr. apply Hw.
  apply list_elem_of_In. apply list_elem_of_In, List.filter_In in Hr. tauto.
Qed.

Lemma consistent_INSERT (r : row) (t t' : table) :
  consistent t -> whole r -> INSERT r t = inr t' -> consistent t'.
Proof.
  intros (Hh & Hi & Hw) Hr. unfold INSERT.
  destruct (existsb (conflicts r) t) eqn:Hconflict; [done|]. intros [= <-].
  assert (Hfree : forall r', r' ∈ t -> id r' <> id r /\ query_hash r' <> query_hash r).
  { intros r' Hin. apply not_true_iff_false in Hconflict.
    split; intros Heq; apply Hconflict, existsb_exists; exists r';
      (split; [by apply list_elem_of_In|]); unfold conflicts; rewrite Heq;
      rewrite String.eqb_refl; [done | apply orb_true_r]. }
  repeat split.
  - rewrite fmap_app. apply NoDup_app. split; [done|]. split; [|apply NoDup_singleton].
    intros h (r' & -> & Hin)%list_elem_of_fmap [=]%list_elem_of_singleton.
    by destruct (Hfree r' Hin).
  - rewrite fmap_app. apply NoDup_app. split; [done|]. split; [|apply NoDup_singleton].
    intros h (r' & -> & Hin)%list_elem_of_fmap [=]%list_elem_of_singleton.
    by destruct (Hfree r' Hin).
  - apply Forall_app. split; [done|]. by constructor.
Qed.

End Cache.

Section CacheStates.

Import SearchCache.

Variable fingerprint : search_type -> jsval -> string.

Lemma entry_whole now new_id k params found api ttl :
  whole (entry fingerprint now new_id k params found api ttl).
Proof. by exists found. Qed.

Lemma consistent_put now new_id k params found api ttl (t t' : table) :
  consistent t -> put fingerprint now new_id k params found api ttl t = inr t' ->
  consistent t'.
Proof.
  intros Ht. unfold put. destruct (existsb _ t).
  - intros [= <-]. destruct Ht as (Hh & Hi & Hw).
    set (f := fun r : row => if String.eqb (query_hash r) (fingerprint k params)
                              then replace now k found api ttl r else r).
    assert (Hsame : forall r, query_hash (f r) = query_hash r /\ id (f r) = id r).
    { intros r. unfold f. by destruct (String.eqb _ _). }
    repeat split.
    + rewrite <- list_fmap_compose.
      erewrite list_fmap_ext; [exact Hh|]. intros ? r _. apply Hsame.
    + rewrite <- list_fmap_compose.
      erewrite list_fmap_ext; [exact Hi|]. intros ? r _. apply Hsame.
    + apply Forall_fmap. eapply Forall_impl; [exact Hw|].
      intros r Hr. simpl. fold (f r). unfold f. destruct (String.eqb _ _); [|done].
      by exists found.
  - intros H. eapply consistent_INSERT; [exact Ht | apply entry_whole | exact H].
Qed.

Lemma execute_consistent now s (t : table) :
  consistent t -> consistent (execute fingerprint now s t).
Proof.
  intros Ht. destruct s as [new_id k params found api ttl|new_id k params found api ttl|k params|h|];
    simpl.
  - destruct (put _ _ _ _ _ _ _ _ t) as [|t'] eqn:Hput; [done|].
    by eapply consistent_put.
  - destruct (INSERT _ t) as [|t'] eqn:Hinsert; [done|].
    eapply consistent_INSERT; [exact Ht | apply entry_whole | exact Hinsert].
  - done.
  - by apply consistent_filter.
  - unfold cleanup_expired_cache. destruct (_ <=? _); [|done].
    by apply consistent_filter.
Qed.

(** C7: in every state of the store that statements lead to, whatever
    their order and their times, two entries with the same [query_hash] are
    the same entry, and every entry is whole: its count is the number of its
    results.  A statement that the constraints refuse changes nothing. *)
Theorem fingerprint_identifies_one_entry (t : table) :
  reachable fingerprint t ->
  NoDup (query_hash <$> t) /\
  (forall r1 r2, r1 ∈ t -> r2 ∈ t -> query_hash r1 = query_hash r2 -> r1 = r2) /\
  Forall whole t.
Proof.
  intros Hreach.
  assert (Ht : consistent t).
  { induction Hreach as [|t now s _ IH]; [|by apply execute_consistent].
    repeat split; constructor. }
  destruct Ht as (Hh & _ & Hw). repeat split; try done.
  intros r1 r2. by apply NoDup_fmap_same.
Qed.

End CacheStates.

Lemma fingerprint_identifies_one_entry_witness :
  SearchCache.reachable Sample.sample_fingerprint Sample.raced /\
  length Sample.raced = 1%nat /\
  NoDup (SearchCache.query_hash <$> Sample.raced) /\
  Forall SearchCache.whole Sample.raced.
Proof.
  assert (Hreach : SearchCache.reachable Sample.sample_fingerprint Sample.raced)
    by (repeat constructor).
  split; [exact Hreach|]. split; [reflexivity|].
  destruct (fingerprint_identifies_one_entry Sample.sample_fingerprint Sample.raced Hreach)
    as (Hh & _ & Hw).
  split; [exact Hh | exact Hw].
Defined.

(** * Further properties of the code *)

(** ** The token cache and [searchEbay] *)

Section Client.

Import Ebay Props.

Lemma getAccessToken_returned w s tok s' :
  getAccessToken w s = (Return tok, s') ->
  exists t, cachedToken s' = Some t /\ token t = tok.
Proof.
  unfold getAccessToken. run. intros Hrun.
  cases Hrun; injection Hrun as <- <-; eauto.
Qed.

Lemma getAccessToken_cached w s t :
  isEbayConfigured w = true ->
  cachedToken s = Some t -> expiresAt t > clock w + 5 * 60 * 1000 ->
  getAccessToken w s = (Return (token t), s).
Proof.
  intros Hconf Ht Hfresh. apply credentials_truthy in Hconf.
  unfold getAccessToken. run. rewrite Hconf, Ht. simpl.
  change REFRESH_BUFFER with (5 * 60 * 1000).
  destruct (Z.gtb_spec (expiresAt t) (clock w + 5 * 60 * 1000)); [done | lia].
Qed.

(** A token that [getAccessToken] has returned is in the cache, and every
    later call made more than five minutes before its recorded expiry
    returns it again without a request, whatever the endpoint would say. *)
Theorem getAccessToken_reuses_token w s tok s' :
  getAccessToken w s = (Return tok, s') ->
  exists t,
    cachedToken s' = Some t /\ token t = tok /\
    forall w',
      isEbayConfigured w' = true -> expiresAt t > clock w' + 5 * 60 * 1000 ->
      getAccessToken w' s' = (Return tok, s').
Proof.
  intros Hrun. destruct (getAccessToken_returned _ _ _ _ Hrun) as (t & Ht & <-).
  exists t. repeat split; [done|]. intros w' Hconf Hfresh.
  by apply getAccessToken_cached.
Qed.

(** A call of [getAccessToken] that throws leaves the cached token as it
    was: a refresh that fails does not drop or replace it. *)
Theorem getAccessToken_failure_keeps_cache w s e s' :
  getAccessToken w s = (Throw e, s') -> cachedToken s' = cachedToken s.
Proof.
  unfold getAccessToken. run. intros Hrun.
  cases Hrun; by injection Hrun as <- <-.
Qed.

(** Without credentials [searchEbay] reports the missing configuration and
    does nothing else: no request leaves the process and the store is
    untouched, even when a good token is cached. *)
Theorem searchEbay_unconfigured query options w s :
  isEbayConfigured w = false ->
  exists r message,
    searchEbay query options w s = (Return r, s) /\
    success r = false /\ products r = [] /\ total r = 0 /\
    searchQuery r = query /\
    error r = Some message /\
    String.prefix "eBay API credentials not configured." message = true.
Proof.
  intros Hconf. rewrite isEbayConfigured_spec in Hconf.
  apply negb_false_iff in Hconf.
  unfold searchEbay, getAccessToken. run. rewrite Hconf. simpl.
  eexists _, _. repeat split.
Qed.

(** [searchEbay] reports success exactly when a token was obtained, the
    search answered with a status from 200 to 299 and its body parsed; the
    result then carries the item summaries of the answer (none when the
    answer has no such field), its total, and no error. *)
Theorem searchEbay_success_iff query options w s r s' :
  searchEbay query options w s = (Return r, s') ->
  (success r = true <->
   exists tok s1 response data,
     getAccessToken w s = (Return tok, s1) /\
     search_endpoint w = Return response /\
     ok response = true /\ json response = Return data) /\
  (success r = true ->
   exists data,
     (exists response, search_endpoint w = Return response /\ json response = Return data) /\
     products r = default [] (Browse.itemSummaries data) /\
     total r = Browse.resp_total data /\
     error r = None).
Proof.
  unfold searchEbay. run. intros Hrun.
  destruct (getAccessToken w s) as [[tok|e] s1] eqn:Htoken; simpl in Hrun.
  2:{ injection Hrun as <- <-. simpl. split; [|done].
      split; [done|]. by intros (? & ? & ? & ? & [=] & _). }
  destruct (search_endpoint w) as [response|e] eqn:Hsearch; simpl in Hrun.
  2:{ injection Hrun as <- <-. simpl. split; [|done].
      split; [done|]. by intros (? & ? & ? & ? & _ & [=] & _). }
  destruct (ok response) eqn:Hok; simpl in Hrun.
  - destruct (json response) as [data|e] eqn:Hjson; simpl in Hrun;
      injection Hrun as <- <-; simpl.
    + split; [split; [eauto 10 | done]|]. intros _. exists data.
      split; [eauto|]. repeat split.
      destruct (Z.eqb_spec (Browse.resp_total data) 0); congruence.
    + split; [|done]. split; [done|].
      intros (? & ? & ? & ? & _ & [= <-] & _ & ?). congruence.
  - assert (Hfail : success r = false).
    { destruct (text response); simpl in Hrun; [|by injection Hrun as <- <-].
      destruct (status response =? 401); simpl in Hrun; [by injection Hrun as <- <-|].
      destruct (status response =? 429); simpl in Hrun; by injection Hrun as <- <-. }
    rewrite Hfail. split; [|done]. split; [done|].
    intros (? & ? & ? & ? & _ & [= <-] & ? & _). congruence.
Qed.

(** Only an answer 401 makes [searchEbay] drop the token: after any other
    outcome of the search (429, another status, a network error, a success)
    the cached token is the one [getAccessToken] left. *)
Theorem searchEbay_drops_token_only_on_401 query options w s r s' c s1 :
  searchEbay query options w s = (Return r, s') ->
  getAccessToken w s = (c, s1) ->
  cachedToken s' = cachedToken s1 \/
  (cachedToken s' = None /\
   exists response, search_endpoint w = Return response /\ status response = 401).
Proof.
  unfold searchEbay. run. intros Hrun Htoken. rewrite Htoken in Hrun.
  destruct c as [tok|e]; simpl in Hrun; [|injection Hrun as <- <-; by left].
  destruct (search_endpoint w) as [response|e] eqn:Hsearch; simpl in Hrun;
    [|injection Hrun as <- <-; by left].
  destruct (ok response); simpl in Hrun.
  - destruct (json response); simpl in Hrun; injection Hrun as <- <-; by left.
  - destruct (text response); simpl in Hrun; [|injection Hrun as <- <-; by left].
    destruct (Z.eqb_spec (status response) 401) as [H401|]; simpl in Hrun.
    + injection Hrun as <- <-. right. eauto.
    + destruct (status response =? 429); simpl in Hrun;
        injection Hrun as <- <-; by left.
Qed.

(** What [searchEbay] sends: at most one token request, then at most one
    search request.  A search request carries the token that
    [getAccessToken] returned and the query, with limit 20 and offset 0
    unless the options say otherwise; none is sent when no token was
    obtained. *)
Theorem searchEbay_requests query options w s r s' :
  searchEbay query options w s = (Return r, s') ->
  exists c s1 searches,
    getAccessToken w s = (c, s1) /\
    (issued s1 = issued s \/
     issued s1 = (issued s ++ [TokenRequest (default "" (env w !! "EBAY_CLIENT_ID"))
                                           (default "" (env w !! "EBAY_CLIENT_SECRET"))])%list) /\
    issued s' = (issued s1 ++ searches)%list /\
    match c with
    | Return tok =>
        exists more,
          searches = [SearchRequest tok
                        ([("q", query);
                          ("limit", pretty (default 20 (limit options)));
                          ("offset", pretty (default 0 (offset options)))] ++ more)]
    | Throw _ => searches = []
    end.
Proof.
  unfold searchEbay. run. intros Hrun.
  destruct (getAccessToken w s) as [c s1] eqn:Htoken.
  assert (Hlog : issued s1 = issued s \/
                 issued s1 = (issued s ++ [TokenRequest (default "" (env w !! "EBAY_CLIENT_ID"))
                                           (default "" (env w !! "EBAY_CLIENT_SECRET"))])%list).
  { revert Htoken. unfold getAccessToken. run. intros Htoken.
    cases Htoken; injection Htoken as <- <-; simpl; auto. }
  destruct c as [tok|e]; simpl in Hrun.
  - eexists (Return tok), s1, _. split; [done|]. split; [done|].
    split; [|eexists; reflexivity].
    destruct (search_endpoint w) as [response|]; simpl in Hrun;
      [|by injection Hrun as <- <-].
    destruct (ok response); simpl in Hrun.
    + destruct (json response); simpl in Hrun; by injection Hrun as <- <-.
    + destruct (text response); simpl in Hrun; [|by injection Hrun as <- <-].
      destruct (status response =? 401); simpl in Hrun; [by injection Hrun as <- <-|].
      destruct (status response =? 429); simpl in Hrun; by injection Hrun as <- <-.
  - injection Hrun as <- <-. exists (Throw e), s1, []. split; [done|]. split; [done|].
    split; [by rewrite app_nil_r | done].
Qed.

End Client.

(** ** [searchSimilarProducts] *)

Section Keywords.

Import Ebay Props.

Lemma lower_idempotent c : Text.lower (Text.lower c) = Text.lower c.
Proof. destruct c as [[] [] [] [] [] [] [] []]; reflexivity. Qed.

Lemma toLowerCase_idempotent s : Text.toLowerCase (Text.toLowerCase s) = Text.toLowerCase s.
Proof.
  induction s as [|c s IH]; [done|]. simpl. by rewrite lower_idempotent, IH.
Qed.

Lemma toLowerCase_app a b :
  Text.toLowerCase (a +:+ b) = Text.toLowerCase a +:+ Text.toLowerCase b.
Proof. induction a as [|c a IH]; [done|]. simpl. by rewrite IH. Qed.

Lemma split_spaces_from_lowered s piece in_run :
  Text.toLowerCase s = s -> Text.toLowerCase piece = piece ->
  Forall (fun p => Text.toLowerCase p = p) (Text.split_spaces_from s piece in_run).
Proof.
  revert piece in_run. induction s as [|c s IH]; intros piece in_run Hs Hpiece; simpl.
  - by constructor.
  - simpl in Hs. injection Hs as Hc Hs.
    destruct (Text.is_space c); [destruct in_run|].
    + by apply IH.
    + constructor; [done|]. by apply IH.
    + apply IH; [done|]. rewrite toLowerCase_app, Hpiece. simpl. by rewrite Hc.
Qed.

Lemma keywords_of_lowered s :
  Forall (fun x => keyword x = true /\ Text.toLowerCase x = x)
         (List.filter keyword (Text.split_spaces (Text.toLowerCase s))).
Proof.
  apply Forall_forall. intros x Hx.
  apply list_elem_of_In, List.filter_In in Hx as [Hx Hk]. split; [done|].
  pose proof (split_spaces_from_lowered (Text.toLowerCase s) "" false
                (toLowerCase_idempotent s) eq_refl) as H.
  rewrite Forall_forall in H. by apply H, list_elem_of_In.
Qed.

Lemma unique_from_spec seen words :
  NoDup (Text.unique_from seen words) /\
  forall x, x ∈ Text.unique_from seen words -> x ∈ words /\ x ∉ seen.
Proof.
  revert seen. induction words as [|w words IH]; intros seen; simpl.
  - split; [constructor|]. by intros x ?%elem_of_nil.
  - destruct (IH seen) as [Hnd Hin]. destruct (IH (w :: seen)) as [Hnd' Hin'].
    case_bool_decide as Hseen.
    + split; [done|]. intros x Hx. destruct (Hin x Hx). split; [by right | done].
    + split.
      * apply NoDup_cons. split; [|done].
        intros Hw. destruct (Hin' w Hw) as [_ Hfresh]. apply Hfresh. by left.
      * intros x [->|Hx]%elem_of_cons; [split; [by left | done]|].
        destruct (Hin' x Hx) as [? Hfresh]. split; [by right|].
        intros ?. apply Hfresh. by right.
Qed.

Lemma searchEbay_query query options w s r s' :
  searchEbay query options w s = (Return r, s') -> searchQuery r = query.
Proof.
  unfold searchEbay. run. intros Hrun.
  destruct (getAccessToken w s) as [[tok|e] s1]; simpl in Hrun;
    [|by injection Hrun as <- <-].
  destruct (search_endpoint w) as [response|]; simpl in Hrun;
    [|by injection Hrun as <- <-].
  destruct (ok response); simpl in Hrun.
  - destruct (json response); simpl in Hrun; by injection Hrun as <- <-.
  - destruct (text response); simpl in Hrun; [|by injection Hrun as <- <-].
    destruct (status response =? 401); simpl in Hrun; [by injection Hrun as <- <-|].
    destruct (status response =? 429); simpl in Hrun; by injection Hrun as <- <-.
Qed.

Lemma searchEbay_sends query n w s r s' :
  searchEbay query {| limit := Some n; offset := None; filter := None; sort := None |} w s
    = (Return r, s') ->
  exists c s1,
    getAccessToken w s = (c, s1) /\
    issued s' = (issued s1 ++
                 match c with
                 | Return tok =>
                     [SearchRequest tok [("q", query); ("limit", pretty n); ("offset", pretty 0)]]
                 | Throw _ => []
                 end)%list.
Proof.
  unfold searchEbay. run. intros Hrun.
  destruct (getAccessToken w s) as [[tok|e] s1] eqn:Htoken; simpl in Hrun.
  - exists (Return tok), s1. split; [done|].
    destruct (search_endpoint w) as [response|]; simpl in Hrun;
      [|by injection Hrun as <- <-].
    destruct (ok response); simpl in Hrun.
    + destruct (json response); simpl in Hrun; by injection Hrun as <- <-.
    + destruct (text response); simpl in Hrun; [|by injection Hrun as <- <-].
      destruct (status response =? 401); simpl in Hrun; [by injection Hrun as <- <-|].
      destruct (status response =? 429); simpl in Hrun; by injection Hrun as <- <-.
  - injection Hrun as <- <-. exists (Throw e), s1. split; [done|]. by rewrite app_nil_r.
Qed.

(** The query that [searchSimilarProducts] sends, and reports in its result,
    is made of at most five words separated by one space: no word twice, each
    in lower case, longer than two characters and not a stop word.  What it
    sends after the token has been dealt with is one search request, with
    that query, limit 15 and offset 0, when a token was obtained, and nothing
    otherwise. *)
Theorem searchSimilarProducts_query name descr features w s :
  exists r s' words c s1,
    searchSimilarProducts name descr features w s = (Return r, s') /\
    searchQuery r = Text.join " " words /\
    (length words <= 5)%nat /\
    NoDup words /\
    Forall (fun x => keyword x = true /\ Text.toLowerCase x = x) words /\
    getAccessToken w s = (c, s1) /\
    issued s' = (issued s1 ++
                 match c with
                 | Return tok =>
                     [SearchRequest tok [("q", Text.join " " words); ("limit", "15");
                                         ("offset", "0")]]
                 | Throw _ => []
                 end)%list.
Proof.
  destruct (searchSimilarProducts_returns name descr features w s) as (r & s' & Hrun & _).
  unfold searchSimilarProducts in *.
  set (nameWords := List.filter keyword (Text.split_spaces (Text.toLowerCase name))) in *.
  set (keywords := match features with
                   | Some (_ :: _ as keyFeatures) => _
                   | _ => take 3 nameWords
                   end) in *.
  destruct (searchEbay_sends _ _ _ _ _ _ Hrun) as (c & s1 & Htoken & Hissued).
  exists r, s', (take 5 (Text.unique keywords)), c, s1.
  split; [done|]. split; [by eapply searchEbay_query|].
  split; [rewrite length_take; lia|].
  destruct (unique_from_spec [] keywords) as [Hnd Hin].
  split; [eapply sublist_NoDup; [exact Hnd | apply sublist_take]|].
  split; [|by split].
  apply Forall_take, Forall_forall. intros x Hx. destruct (Hin x Hx) as [Hk _].
  assert (Hall : Forall (fun x => keyword x = true /\ Text.toLowerCase x = x) keywords).
  { unfold keywords. destruct features as [[|f fs]|];
      try (apply Forall_take, keywords_of_lowered).
    apply Forall_app. split; [apply Forall_take, keywords_of_lowered|].
    apply Forall_take, Forall_forall. intros y Hy.
    apply list_elem_of_In, in_flat_map in Hy as (g & _ & Hy).
    pose proof (keywords_of_lowered g) as Hg. rewrite Forall_forall in Hg.
    by apply Hg, list_elem_of_In. }
  rewrite Forall_forall in Hall. by apply Hall.
Qed.

(** [searchSimilarProducts] does not look at the description, and looks at
    the name and at the features in lower case only: two inventions whose
    names and features differ in case alone are searched alike. *)
Theorem searchSimilarProducts_case_insensitive name1 name2 descr1 descr2
    (features1 features2 : option (list string)) :
  Text.toLowerCase name1 = Text.toLowerCase name2 ->
  fmap (M := list) Text.toLowerCase <$> features1
    = fmap (M := list) Text.toLowerCase <$> features2 ->
  searchSimilarProducts name1 descr1 features1 = searchSimilarProducts name2 descr2 features2.
Proof.
  intros Hname Hfeatures. unfold searchSimilarProducts. rewrite Hname.
  assert (Hflat : forall fs : list string,
            flat_map (fun f => List.filter keyword (Text.split_spaces (Text.toLowerCase f)))
                     (take 2 fs)
            = flat_map (fun g => List.filter keyword (Text.split_spaces g))
                       (take 2 (Text.toLowerCase <$> fs))).
  { intros fs. rewrite <- fmap_take.
    induction (take 2 fs) as [|f l IH]; [done|]. simpl. by rewrite IH. }
  destruct features1 as [[|f1 fs1]|], features2 as [[|f2 fs2]|]; try done.
  assert (Hl : Text.toLowerCase <$> (f1 :: fs1) = Text.toLowerCase <$> (f2 :: fs2))
    by (rewrite !fmap_cons; injection Hfeatures as Hf Hfs; f_equal; done).
  by rewrite (Hflat (f1 :: fs1)), (Hflat (f2 :: fs2)), Hl.
Qed.

End Keywords.

(** ** The agent: failures, requests, and replies out of shape *)

Section AgentEdges.

Import Ebay Retail Props Edge.

Variable StringToNumber : string -> number.

Local Abbreviation agent := (runRetailSearchAgent StringToNumber).

Lemma searchEbay_failure_message query options w s r s' :
  searchEbay query options w s = (Return r, s') ->
  success r = false -> exists message, error r = Some message.
Proof.
  unfold searchEbay. run. intros Hrun.
  destruct (getAccessToken w s) as [[tok|e] s1]; simpl in Hrun;
    [|injection Hrun as <- <-; simpl; eauto].
  destruct (search_endpoint w) as [response|]; simpl in Hrun;
    [|injection Hrun as <- <-; simpl; eauto].
  destruct (ok response); simpl in Hrun.
  - destruct (json response); simpl in Hrun; injection Hrun as <- <-; simpl; eauto.
    done.
  - destruct (text response); simpl in Hrun; [|injection Hrun as <- <-; simpl; eauto].
    destruct (status response =? 401); simpl in Hrun;
      [injection Hrun as <- <-; simpl; eauto|].
    destruct (status response =? 429); simpl in Hrun;
      injection Hrun as <- <-; simpl; eauto.
Qed.

(** When the search fails, the agent returns at once: not novel, confidence
    0, no findings, and a summary that carries the message of the failure
    (there always is one); the store is the one phase 1 left, and no
    analysis has been asked for. *)
Theorem provider_failure_reported request w s ebayResult s1 :
  isEbayConfigured w = true ->
  searchSimilarProducts (Request.invention_name request) (Request.description request)
    (Request.key_features request) w s = (Return ebayResult, s1) ->
  success ebayResult = false ->
  exists r message,
    agent request w s = (Return r, s1) /\
    error ebayResult = Some message /\
    summary r = Str ("eBay API error: " +:+ message) /\
    is_novel r = Boolean false /\ confidence r = lit 0 /\ findings r = [] /\
    search_query_used r = searchQuery ebayResult /\
    analysis_requests s1 = analysis_requests s.
Proof.
  intros Hconf Hphase1 Hfail.
  destruct (searchEbay_failure_message _ _ _ _ _ _ Hphase1 Hfail) as [message Hmessage].
  rewrite (agent_provider_failed _ _ _ _ _ _ Hconf Hphase1 Hfail).
  eexists _, message. split; [reflexivity|]. simpl. rewrite Hmessage.
  repeat split.
  destruct (searchSimilarProducts_returns (Request.invention_name request)
              (Request.description request) (Request.key_features request) w s)
    as (r' & s' & Hrun' & Hlog).
  rewrite Hphase1 in Hrun'. by injection Hrun' as <- <-.
Qed.

Lemma analysed_log request ebayResult found w s c s' :
  analysed StringToNumber request ebayResult found w s = (c, s') ->
  cachedToken s' = cachedToken s /\
  issued s' = (issued s ++ [AnalysisRequest request (products ebayResult)])%list.
Proof.
  unfold analysed. run. intros Hrun.
  destruct (messages_create w) as [[[[v|]|]|]|]; simpl in Hrun;
    try (by injection Hrun as <- <-).
  destruct (analysis_entries v); simpl in Hrun; [|by injection Hrun as <- <-].
  destruct (mapM _ found) as [updated|]; simpl in Hrun; [|by injection Hrun as <- <-].
  destruct (Array_sort _ updated); simpl in Hrun; [|by injection Hrun as <- <-].
  destruct (get_property v "is_novel"); simpl in Hrun; [|by injection Hrun as <- <-].
  destruct (get_property v "confidence"); simpl in Hrun; [|by injection Hrun as <- <-].
  destruct (get_property v "summary"); simpl in Hrun; [|by injection Hrun as <- <-].
  destruct (get_property v "truth_scores"); simpl in Hrun; by injection Hrun as <- <-.
Qed.

(** The agent asks for at most one analysis in a run, and only when phase 1
    has found products: the request then lists exactly these products, and
    is the last thing sent. *)
Theorem agent_asks_for_one_analysis request w s r s' :
  agent request w s = (Return r, s') ->
  analysis_requests s' = analysis_requests s \/
  exists ebayResult s1,
    searchSimilarProducts (Request.invention_name request) (Request.description request)
      (Request.key_features request) w s = (Return ebayResult, s1) /\
    success ebayResult = true /\ products ebayResult <> [] /\
    issued s' = (issued s1 ++ [AnalysisRequest request (products ebayResult)])%list /\
    analysis_requests s' =
      (analysis_requests s ++ [AnalysisRequest request (products ebayResult)])%list.
Proof.
  intros Hrun.
  destruct (isEbayConfigured w) eqn:Hconf.
  2:{ rewrite (agent_unconfigured _ _ _ _ Hconf) in Hrun. injection Hrun as <- <-. by left. }
  destruct (searchSimilarProducts_returns (Request.invention_name request)
              (Request.description request) (Request.key_features request) w s)
    as (ebayResult & s1 & Hphase1 & Hlog).
  destruct (success ebayResult) eqn:Hok.
  2:{ rewrite (agent_provider_failed _ _ _ _ _ _ Hconf Hphase1 Hok) in Hrun.
      injection Hrun as <- <-. by left. }
  destruct (decide (products ebayResult = [])) as [Hnone|Hsome].
  - destruct (agent_nothing_found StringToNumber _ _ _ _ _ Hconf Hphase1 Hok Hnone) as (r' & Hrun' & _).
    rewrite Hrun' in Hrun. injection Hrun as <- <-. by left.
  - right. exists ebayResult, s1. repeat split; try done.
    + rewrite (agent_phase2 _ _ _ _ _ _ Hconf Hphase1 Hok Hsome) in Hrun.
      unfold try_catch in Hrun.
      destruct (analysed _ _ _ _ w s1) as [[r'|e] s2] eqn:Hbody;
        apply analysed_log in Hbody as [_ Hissued].
      * by injection Hrun as <- <-.
      * rewrite unanalysed_eq in Hrun. by injection Hrun as <- <-.
    + rewrite (agent_phase2 _ _ _ _ _ _ Hconf Hphase1 Hok Hsome) in Hrun.
      unfold try_catch in Hrun.
      destruct (analysed _ _ _ _ w s1) as [[r'|e] s2] eqn:Hbody;
        apply analysed_log in Hbody as [_ Hissued].
      * injection Hrun as <- <-. unfold analysis_requests in *.
        by rewrite Hissued, List.filter_app, Hlog.
      * rewrite unanalysed_eq in Hrun. injection Hrun as <- <-.
        unfold analysis_requests in *. by rewrite Hissued, List.filter_app, Hlog.
Qed.

Lemma analysis_inv w v :
  analysis w = Some v -> messages_create w = Return (Some (TextBlock (Return v))).
Proof.
  unfold analysis. destruct (messages_create w) as [[[[v'|]|]|]|]; try done.
  by intros [= ->].
Qed.

(** A reply that parses to [null], or whose [product_analyses] is there and
    is not an array of analyses, is treated like no reply at all: the agent
    returns the findings of phase 1 unscored, with confidence 0.3. *)
Theorem unreadable_analysis_falls_back request w s ebayResult s1 v :
  isEbayConfigured w = true ->
  searchSimilarProducts (Request.invention_name request) (Request.description request)
    (Request.key_features request) w s = (Return ebayResult, s1) ->
  success ebayResult = true -> products ebayResult <> [] ->
  analysis w = Some v -> unreadable v ->
  exists r s',
    agent request w s = (Return r, s') /\
    findings r = ebayProductToFinding <$> products ebayResult /\
    is_novel r = Boolean false /\ confidence r = lit 0.3 /\
    truth_scores r = scores 0.6 0.5 0.4 0.5.
Proof.
  intros Hconf Hphase1 Hok Hsome Hv Hbad.
  rewrite (agent_phase2 _ _ _ _ _ _ Hconf Hphase1 Hok Hsome).
  destruct (analysis_entries_unreadable v Hbad) as [e He].
  unfold try_catch, analysed. run. rewrite (analysis_inv _ _ Hv). simpl.
  rewrite He. simpl. eexists _, _. split; [reflexivity|]. done.
Qed.

Lemma update_finding_unnamed (found : list NoveltyFinding) :
  mapM (update_finding (new_Map [])) found = Return found.
Proof.
  induction found as [|f found IH]; [done|].
  change (mapM (update_finding (new_Map [])) (f :: found))
    with (u ← update_finding (new_Map []) f;
          rest ← mapM (update_finding (new_Map [])) found; mret (u :: rest)).
  rewrite IH. unfold update_finding, new_Map. simpl. by rewrite lookup_empty.
Qed.

Lemma Array_sort_unscored found :
  Forall (fun f => similarity_score f = lit 0) found ->
  Array_sort (by_similarity StringToNumber) found = Return found.
Proof.
  induction 1 as [|f found Hf Hfound IH]; [done|]. simpl.
  unfold mbind, completion_bind. rewrite IH.
  destruct Hfound as [|g found Hg _]; [done|]. simpl.
  unfold by_similarity, mbind, completion_bind. by rewrite Hf, Hg.
Qed.

(** A reply without [product_analyses] is adopted all the same: verdict,
    confidence, summary and truth scores are what the reply holds under these
    names ([undefined] where it holds nothing), and the findings are those of
    phase 1, in their order, each with the score 0 it was created with. *)
Theorem verdict_without_analyses_adopted request w s ebayResult s1 v :
  isEbayConfigured w = true ->
  searchSimilarProducts (Request.invention_name request) (Request.description request)
    (Request.key_features request) w s = (Return ebayResult, s1) ->
  success ebayResult = true -> products ebayResult <> [] ->
  analysis w = Some v -> v <> Null -> v <> Undefined ->
  field v "product_analyses" = Undefined \/ field v "product_analyses" = Null ->
  exists r s',
    agent request w s = (Return r, s') /\
    findings r = ebayProductToFinding <$> products ebayResult /\
    is_novel r = field v "is_novel" /\
    confidence r = field v "confidence" /\
    summary r = field v "summary" /\
    truth_scores r = field v "truth_scores".
Proof.
  intros Hconf Hphase1 Hok Hsome Hv Hnull Hundef Hmissing.
  rewrite (agent_phase2 _ _ _ _ _ _ Hconf Hphase1 Hok Hsome).
  assert (Hentries : analysis_entries v = Return []).
  { unfold analysis_entries, mbind, completion_bind.
    rewrite (get_property_Return v _ Hnull Hundef). by destruct Hmissing as [-> | ->]. }
  unfold try_catch, analysed. run. rewrite (analysis_inv _ _ Hv). simpl.
  rewrite Hentries. simpl. rewrite update_finding_unnamed. simpl.
  rewrite (Array_sort_unscored _ (created_unscored _)). simpl.
  rewrite !(get_property_Return v _ Hnull Hundef). simpl.
  eexists _, _. split; [reflexivity|]. done.
Qed.

Lemma new_Map_miss (m : gmap string jsval) entries key :
  Forall (fun entry => fst entry <> Str key) entries ->
  foldl (fun m entry => match fst entry with
                        | Str id => <[id := snd entry]> m
                        | _ => m
                        end) m entries !! key = m !! key.
Proof.
  intros H. revert m. induction H as [|[k a] entries Hk _ IH]; intros m; [done|].
  simpl. rewrite IH. simpl in Hk. destruct k; try done.
  apply lookup_insert_ne. congruence.
Qed.

(** Which analysis a finding gets: the last one in [product_analyses] that
    names its item gives the finding its score, and its description when the
    analysis has a text; a finding that no analysis names is left as it is. *)
Theorem update_follows_last_analysis v elements entries f u :
  field v "product_analyses" = Arr elements ->
  analysis_entries v = Return entries ->
  update_finding (new_Map entries) f = Return u ->
  (forall before a after,
     elements = (before ++ a :: after)%list ->
     names (item_id (metadata f)) a ->
     Forall (fun b => ~ names (item_id (metadata f)) b) after ->
     similarity_score u = field a "similarity_score" /\
     description u = logical_or (field a "analysis") (description f) /\
     same_listing f u) /\
  (Forall (fun b => ~ names (item_id (metadata f)) b) elements -> u = f).
Proof.
  intros Hpa Hentries Hu.
  rewrite (analysis_entries_eq _ _ _ Hpa Hentries) in Hu. clear Hentries.
  unfold update_finding in Hu. split.
  - intros before a after -> Ha Hafter.
    rewrite fmap_app, fmap_cons, new_Map_app in Hu. simpl in Hu.
    unfold names in Ha. rewrite Ha in Hu.
    rewrite new_Map_miss, lookup_insert_eq in Hu
      by (apply Forall_fmap; eapply Forall_impl; [exact Hafter|]; by intros b Hb).
    simpl in Hu. destruct a; try done. simpl in Hu. by injection Hu as <-.
  - intros Hnone.
    assert (Hmiss : new_Map ((fun a => (field a "item_id", a)) <$> elements)
                      !! item_id (metadata f) = None).
    { unfold new_Map. rewrite new_Map_miss; [apply lookup_empty|].
      apply Forall_fmap. eapply Forall_impl; [exact Hnone|]. by intros b Hb. }
    rewrite Hmiss in Hu. simpl in Hu. by injection Hu as <-.
Qed.

End AgentEdges.

(** ** Findings: the location of an item, and sorting what is sorted *)

Section Findings.

Import Retail Props.

Lemma substring_whole s : String.substring 0 (String.length s) s = s.
Proof. induction s as [|c s IH]; [done|]. simpl. by rewrite IH. Qed.

Lemma substring_front a b : String.substring 0 (String.length a) (a +:+ b) = a.
Proof.
  induction a as [|c a IH]; simpl; [by destruct b|]. by rewrite IH.
Qed.

Lemma substring_back a b :
  String.substring (String.length a) (String.length b) (a +:+ b) = b.
Proof. induction a as [|c a IH]; simpl; [apply substring_whole | done]. Qed.

Lemma length_append a b :
  String.length (a +:+ b) = (String.length a + String.length b)%nat.
Proof. induction a as [|c a IH]; simpl; [done | by rewrite IH]. Qed.

Lemma prefix_append p s : String.prefix p (p +:+ s) = true.
Proof.
  induction p as [|c p IH]; simpl; [by destruct s|].
  destruct (ascii_dec c c); [exact IH | done].
Qed.

Lemma drop_leading_separator s : Text.drop_leading ", " (", " +:+ s) = s.
Proof.
  unfold Text.drop_leading. rewrite prefix_append, length_append.
  replace (String.length ", " + String.length s - String.length ", ")%nat
    with (String.length s) by lia.
  apply substring_back.
Qed.

Lemma drop_trailing_separator s : Text.drop_trailing ", " (s +:+ ", ") = s.
Proof.
  unfold Text.drop_trailing. rewrite length_append.
  change (String.length ", ") with 2%nat.
  replace (String.length s + 2 - 2)%nat with (String.length s) by lia.
  pose proof (substring_back s ", ") as Hback.
  change (String.length ", ") with 2%nat in Hback. rewrite Hback, String.eqb_refl.
  replace (2 <=? String.length s + 2)%nat with true by (symmetry; apply Nat.leb_le; lia).
  simpl. apply substring_front.
Qed.

(** An item located by its state or province alone is shown with just that:
    the separators around the missing city and country are dropped.  An item
    without a location has none. *)
Theorem location_of_state_alone (product : Browse.EbayProduct) :
  (forall l,
     Browse.itemLocation product = Some l ->
     Browse.city l = "" -> Browse.country l = "" ->
     location (metadata (ebayProductToFinding product)) = Some (Browse.stateOrProvince l)) /\
  (forall l,
     Browse.itemLocation product = Some l ->
     Browse.city l = "" ->
     location (metadata (ebayProductToFinding product))
     = Some (Text.drop_trailing ", " (Browse.stateOrProvince l +:+ ", " +:+ Browse.country l))) /\
  (Browse.itemLocation product = None ->
   location (metadata (ebayProductToFinding product)) = None).
Proof.
  split; [|split].
  - intros l Hl Hcity Hcountry. simpl. rewrite Hl. simpl. rewrite Hcity, Hcountry.
    change ("" +:+ ", " +:+ Browse.stateOrProvince l +:+ ", " +:+ "")
      with (", " +:+ (Browse.stateOrProvince l +:+ ", " +:+ "")).
    rewrite drop_leading_separator.
    replace (Browse.stateOrProvince l +:+ ", " +:+ "")
      with (Browse.stateOrProvince l +:+ ", ") by done.
    by rewrite drop_trailing_separator.
  - intros l Hl Hcity. simpl. rewrite Hl. simpl. rewrite Hcity.
    change ("" +:+ ", " +:+ Browse.stateOrProvince l +:+ ", " +:+ Browse.country l)
      with (", " +:+ (Browse.stateOrProvince l +:+ ", " +:+ Browse.country l)).
    by rewrite drop_leading_separator.
  - intros Hl. simpl. by rewrite Hl.
Qed.

Variable StringToNumber : string -> number.

(** Sorting findings that already come highest score first, all scores being
    numbers, returns them as they are. *)
Theorem Array_sort_of_descending found :
  Forall (fun f => numeric (similarity_score f)) found ->
  descending found ->
  Array_sort (by_similarity StringToNumber) found = Return found.
Proof.
  intros Hnum Hdesc. induction Hdesc as [|f found _ IH Hf]; [done|].
  apply Forall_cons in Hnum as [Hx Hnum]. simpl.
  unfold mbind, completion_bind. rewrite (IH Hnum).
  destruct found as [|g found]; [done|]. simpl.
  apply Forall_cons in Hf as [Hfg _]. apply Forall_cons in Hnum as [Hg _].
  destruct (by_similarity_numeric StringToNumber f g Hx Hg) as (x & y & Ex & Ey & ? & ? & ->).
  unfold mbind, completion_bind.
  rewrite positive_minus by done. rewrite Ex, Ey in Hfg. simpl in Hfg. by rewrite Hfg.
Qed.

End Findings.

(** ** The sweep of the cache, twice *)

Section Sweeps.

Import SearchCache.

Lemma expired_later now1 now2 r :
  now1 <= now2 -> expired now1 r = true -> expired now2 r = true.
Proof.
  unfold expired. destruct (expires_at r); [|done].
  rewrite !Z.ltb_lt. lia.
Qed.

Lemma filter_after_weaker {A} (f g : A -> bool) (l : list A) :
  (forall x, f x = true -> g x = true) ->
  List.filter f (List.filter g l) = List.filter f l.
Proof.
  intros H. induction l as [|x l IH]; [done|]. simpl.
  destruct (g x) eqn:Hg; simpl.
  - by rewrite IH.
  - destruct (f x) eqn:Hf; [|done]. apply H in Hf. congruence.
Qed.

(** A sweep after an earlier sweep leaves what a single sweep at the later
    time leaves, and the two counts add up to its count (when that fits an
    [INTEGER]). *)
Theorem cleanup_twice (now1 now2 : Z) (t t1 t2 : table) (n1 n2 : Z) :
  now1 <= now2 ->
  cleanup_expired_cache now1 t = (inr n1, t1) ->
  cleanup_expired_cache now2 t1 = (inr n2, t2) ->
  n1 + n2 <= INTEGER_MAX ->
  cleanup_expired_cache now2 t = (inr (n1 + n2), t2).
Proof.
  intros Hle H1 H2. unfold cleanup_expired_cache in H1, H2 |- *.
  cases H1. injection H1 as <- <-. cases H2. injection H2 as <- <-.
  rewrite (filter_after_weaker (fun r => negb (expired now2 r)) (fun r => negb (expired now1 r))).
  2:{ intros r Hr. destruct (expired now1 r) eqn:He; [|done].
      apply (expired_later _ _ _ Hle) in He. by rewrite He in Hr. }
  intros Hfits.
  match goal with |- context [?a <=? INTEGER_MAX] => replace a with
    (Z.of_nat (length t) - Z.of_nat (length (List.filter (fun r => negb (expired now1 r)) t)) +
     (Z.of_nat (length (List.filter (fun r => negb (expired now1 r)) t)) -
      Z.of_nat (length (List.filter (fun r => negb (expired now2 r)) t)))) by lia end.
  destruct (Z.leb_spec (Z.of_nat (length t) -
              Z.of_nat (length (List.filter (fun r => negb (expired now1 r)) t)) +
              (Z.of_nat (length (List.filter (fun r => negb (expired now1 r)) t)) -
               Z.of_nat (length (List.filter (fun r => negb (expired now2 r)) t))))
              INTEGER_MAX); [done | lia].
Qed.

End Sweeps.

(** ** The review of findings *)

Section Reviewing.

Import Props Review.

Lemma reaches_later x y q :
  number_leb x y = true -> reaches x q = true -> reaches y q = true.
Proof.
  destruct x as [|[]|p], y as [|[]|p']; simpl; try done.
  rewrite !Qle_bool_iff. intros ? ?. by eapply Qle_trans.
Qed.

(** The initial conflict level does not go down when the similarity goes
    up; it is high from 0.7 on, medium from 0.4 on and low below, and low for
    a similarity that is not a number. *)
Theorem getInitialConflictLevel_monotone (x y : number) :
  (number_leb x y = true ->
   (severity (getInitialConflictLevel x) <= severity (getInitialConflictLevel y))%nat) /\
  (getInitialConflictLevel x = high <-> reaches x DOUBLE_0_7 = true) /\
  (getInitialConflictLevel x = low <-> reaches x DOUBLE_0_4 = false) /\
  getInitialConflictLevel NaN = low.
Proof.
  assert (Hlower : forall z, reaches z DOUBLE_0_7 = true -> reaches z DOUBLE_0_4 = true).
  { intros [|[]|p]; simpl; try done. rewrite !Qle_bool_iff.
    intros H. eapply Qle_trans; [|exact H]. by vm_compute. }
  split; [|split; [|split]].
  - intros Hle. unfold getInitialConflictLevel.
    destruct (reaches x DOUBLE_0_7) eqn:Hx7.
    { by rewrite (reaches_later _ _ _ Hle Hx7). }
    destruct (reaches x DOUBLE_0_4) eqn:Hx4.
    { rewrite (reaches_later _ _ _ Hle Hx4). destruct (reaches y DOUBLE_0_7); simpl; lia. }
    simpl. lia.
  - unfold getInitialConflictLevel.
    destruct (reaches x DOUBLE_0_7); [done|]. by destruct (reaches x DOUBLE_0_4).
  - unfold getInitialConflictLevel.
    destruct (reaches x DOUBLE_0_7) eqn:H7; [by rewrite (Hlower _ H7)|].
    by destruct (reaches x DOUBLE_0_4).
  - reflexivity.
Qed.

Lemma initial_states_plain findings :
  Forall (fun f => id f <> "__proto__") findings ->
  initial_states findings
  = foldl (fun initial finding => <[id finding := initial_state finding]> initial) ∅ findings.
Proof.
  unfold initial_states. generalize (∅ : gmap string FindingState).
  intros m H. revert m. induction H as [|f findings Hf _ IH]; intros m; [done|].
  simpl. apply String.eqb_neq in Hf. rewrite Hf. apply IH.
Qed.

Lemma map_to_list_foldl_insert (m : gmap string FindingState) findings :
  NoDup (id <$> findings) ->
  Forall (fun f => m !! id f = None) findings ->
  map_to_list (foldl (fun initial finding => <[id finding := initial_state finding]> initial)
                     m findings)
  ≡ₚ ((fun f => (id f, initial_state f)) <$> findings) ++ map_to_list m.
Proof.
  revert m. induction findings as [|f findings IH]; intros m Hnd Hfresh; [done|].
  rewrite fmap_cons in Hnd. apply NoDup_cons in Hnd as [Hf Hnd].
  apply Forall_cons in Hfresh as [Hm Hfresh]. simpl.
  rewrite IH; [|done|].
  - rewrite map_to_list_insert by done. by rewrite Permutation_middle.
  - apply Forall_forall. intros g Hg. rewrite Forall_forall in Hfresh.
    rewrite lookup_insert_ne; [by apply Hfresh|].
    intros Heq. apply Hf. rewrite Heq. by apply list_elem_of_fmap_2.
Qed.

Lemma count_states level findings :
  length (filter (fun s => conflictLevel s = level)
                 (snd <$> ((fun f => (id f, initial_state f)) <$> findings)))
  = length (filter (fun f => getInitialConflictLevel (similarityScore f) = level) findings).
Proof.
  induction findings as [|f findings IH]; [done|].
  rewrite !fmap_cons, !filter_cons. simpl.
  destruct (decide (getInitialConflictLevel (similarityScore f) = level)); simpl;
    by rewrite IH.
Qed.

Lemma size_foldl_insert (m : gmap string FindingState) findings :
  (size (foldl (fun initial finding =>
                  if String.eqb (id finding) "__proto__" then initial
                  else <[id finding := initial_state finding]> initial) m findings)
   <= size m + length findings)%nat.
Proof.
  revert m. induction findings as [|f findings IH]; intros m; simpl; [lia|].
  destruct (String.eqb (id f) "__proto__").
  - specialize (IH m). lia.
  - etransitivity; [apply IH|]. rewrite map_size_insert.
    destruct (m !! id f); unfold Datatypes.id; simpl; lia.
Qed.

(** The badges at the start.  When the findings have different ids (none of
    them [__proto__]), the count of a level is the number of findings whose
    similarity gives that level: High counts the findings that reach 0.7.
    Whatever the ids, High and Medium together never count more than there
    are findings. *)
Theorem initial_counts (findings : list FindingData) :
  (NoDup (id <$> findings) -> Forall (fun f => id f <> "__proto__") findings ->
   forall level,
     count_level level (initial_states findings)
     = length (filter (fun f => getInitialConflictLevel (similarityScore f) = level)
                      findings)) /\
  (highConflictCount (initial_states findings)
   + mediumConflictCount (initial_states findings) <= length findings)%nat.
Proof.
  split.
  - intros Hnd Hproto level. unfold count_level.
    rewrite (initial_states_plain _ Hproto).
    rewrite map_to_list_foldl_insert; [|done|].
    + rewrite map_to_list_empty, app_nil_r. apply count_states.
    + apply Forall_forall. intros f _. apply lookup_empty.
  - unfold highConflictCount, mediumConflictCount, count_level.
    pose proof (size_foldl_insert ∅ findings) as Hsize.
    fold (initial_states findings) in Hsize.
    rewrite map_size_empty in Hsize.
    rewrite <- length_map_to_list in Hsize.
    rewrite <- (length_fmap snd) in Hsize.
    revert Hsize. generalize (snd <$> map_to_list (initial_states findings)).
    intros states Hsize.
    assert (Hsplit : (length (filter (fun s => conflictLevel s = high) states)
                      + length (filter (fun s => conflictLevel s = medium) states)
                      <= length states)%nat).
    { clear Hsize. induction states as [|st states IH]; [done|].
      rewrite !filter_cons.
      destruct (decide (conflictLevel st = high)) as [Hh|],
               (decide (conflictLevel st = medium)) as [Hm|]; simpl; try lia.
      rewrite Hh in Hm. discriminate Hm. }
    lia.
Qed.

End Reviewing.

(** ** The further properties on sample worlds *)

Section FurtherSamples.

Import Ebay Retail Props.

Local Abbreviation agent := (runRetailSearchAgent Sample.no_numeric_strings).

Lemma getAccessToken_reuses_token_witness :
  let w := Sample.shop Sample.sound_answer in
  getAccessToken w Sample.cold = (Return "v^1.1#fresh", Sample2.refreshed) /\
  getAccessToken (Sample2.an_hour_later w) Sample2.refreshed
    = (Return "v^1.1#fresh", Sample2.refreshed).
Proof.
  intros w.
  assert (Hrun : getAccessToken w Sample.cold = (Return "v^1.1#fresh", Sample2.refreshed))
    by (vm_compute; reflexivity).
  split; [exact Hrun|].
  destruct (getAccessToken_reuses_token _ _ _ _ Hrun) as (t & Ht & _ & Hlater).
  injection Ht as <-. apply Hlater; reflexivity.
Defined.

Lemma getAccessToken_failure_keeps_cache_witness :
  exists e s',
    getAccessToken Sample2.offline Sample2.stale = (Throw e, s') /\
    cachedToken s' = cachedToken Sample2.stale.
Proof.
  destruct (getAccessToken Sample2.offline Sample2.stale) as [[tok|e] s'] eqn:Hrun;
    [vm_compute in Hrun; discriminate Hrun|].
  exists e, s'. split; [reflexivity|].
  exact (getAccessToken_failure_keeps_cache _ _ _ _ Hrun).
Defined.

Lemma searchEbay_unconfigured_witness :
  isEbayConfigured Sample.bare_world = false /\
  exists r message,
    searchEbay "solar phone case" no_options Sample.bare_world Sample.warm
      = (Return r, Sample.warm) /\
    success r = false /\ error r = Some message.
Proof.
  split; [reflexivity|].
  destruct (searchEbay_unconfigured "solar phone case" no_options Sample.bare_world Sample.warm
              eq_refl) as (r & message & Hrun & Hfail & _ & _ & _ & Herror & _).
  exists r, message. split; [exact Hrun|]. split; [exact Hfail | exact Herror].
Defined.

Lemma searchEbay_success_iff_witness :
  let w := Sample.shop Sample.no_answer in
  exists r s',
    searchEbay "solar phone case" no_options w Sample.cold = (Return r, s') /\
    success r = true /\ products r = Sample.two_listings /\ total r = 2 /\ error r = None.
Proof.
  intros w.
  destruct (searchEbay "solar phone case" no_options w Sample.cold) as [[r|e] s'] eqn:Hrun;
    [|vm_compute in Hrun; discriminate Hrun].
  exists r, s'. split; [reflexivity|].
  assert (Hok : success r = true)
    by (vm_compute in Hrun; injection Hrun as <- _; reflexivity).
  split; [exact Hok|].
  destruct (searchEbay_success_iff _ _ _ _ _ _ Hrun) as [_ Hdata].
  destruct (Hdata Hok) as (data & (response & Hsearch & Hjson) & Hproducts & Htotal & Herror).
  injection Hsearch as <-. injection Hjson as <-.
  split; [exact Hproducts|]. split; [exact Htotal | exact Herror].
Defined.

Lemma searchEbay_drops_token_only_on_401_witness :
  exists r s',
    searchEbay "solar phone case" no_options Sample2.busy Sample.warm = (Return r, s') /\
    cachedToken s' = cachedToken Sample.warm.
Proof.
  destruct (searchEbay "solar phone case" no_options Sample2.busy Sample.warm)
    as [[r|e] s'] eqn:Hrun; [|vm_compute in Hrun; discriminate Hrun].
  exists r, s'. split; [reflexivity|].
  assert (Htoken : getAccessToken Sample2.busy Sample.warm = (Return "v^1.1#cached", Sample.warm))
    by (vm_compute; reflexivity).
  destruct (searchEbay_drops_token_only_on_401 _ _ _ _ _ _ _ _ Hrun Htoken)
    as [Hkept|[_ (response & Hsearch & H401)]]; [exact Hkept|].
  injection Hsearch as <-. discriminate H401.
Defined.

Lemma searchEbay_requests_witness :
  let w := Sample.shop Sample.no_answer in
  exists r s' more,
    searchEbay "solar phone case" no_options w Sample.cold = (Return r, s') /\
    issued s' = [TokenRequest "client" "secret";
                 SearchRequest "v^1.1#fresh"
                   ([("q", "solar phone case"); ("limit", "20"); ("offset", "0")] ++ more)].
Proof.
  intros w.
  destruct (searchEbay "solar phone case" no_options w Sample.cold) as [[r|e] s'] eqn:Hrun;
    [|vm_compute in Hrun; discriminate Hrun].
  destruct (searchEbay_requests _ _ _ _ _ _ Hrun)
    as (c & s1 & searches & Htoken & _ & Hissued & Hsearches).
  assert (Hfresh : getAccessToken w Sample.cold = (Return "v^1.1#fresh", Sample2.refreshed))
    by (vm_compute; reflexivity).
  rewrite Hfresh in Htoken. injection Htoken as <- <-.
  destruct Hsearches as [more ->].
  exists r, s', more. split; [reflexivity | exact Hissued].
Defined.

Lemma searchSimilarProducts_case_insensitive_witness :
  Text.toLowerCase "Solar Phone Case" = Text.toLowerCase "solar phone case" /\
  searchSimilarProducts "Solar Phone Case" "It charges the phone." (Some ["Solar Panel"])
  = searchSimilarProducts "solar phone case" "" (Some ["solar panel"]).
Proof.
  split; [reflexivity|].
  apply searchSimilarProducts_case_insensitive; reflexivity.
Defined.

Lemma provider_failure_reported_witness :
  exists r s' message,
    agent Sample.invention Sample2.busy Sample.cold = (Return r, s') /\
    summary r = Str ("eBay API error: " +:+ message) /\
    confidence r = lit 0 /\ findings r = [] /\
    analysis_requests s' = [].
Proof.
  destruct (searchSimilarProducts (Request.invention_name Sample.invention)
              (Request.description Sample.invention) (Request.key_features Sample.invention)
              Sample2.busy Sample.cold) as [[ebayResult|e] s1] eqn:Hphase1;
    [|vm_compute in Hphase1; discriminate Hphase1].
  assert (Hfail : success ebayResult = false)
    by (vm_compute in Hphase1; injection Hphase1 as <- _; reflexivity).
  destruct (provider_failure_reported Sample.no_numeric_strings Sample.invention Sample2.busy
              Sample.cold ebayResult s1 eq_refl Hphase1 Hfail)
    as (r & message & Hrun & _ & Hsummary & _ & Hconfidence & Hfindings & _ & Hlog).
  exists r, s1, message. split; [exact Hrun|]. split; [exact Hsummary|].
  split; [exact Hconfidence|]. split; [exact Hfindings | exact Hlog].
Defined.

Lemma agent_asks_for_one_analysis_witness :
  let w := Sample.shop Sample.sound_answer in
  exists r s',
    agent Sample.invention w Sample.cold = (Return r, s') /\
    analysis_requests s' = [AnalysisRequest Sample.invention Sample.two_listings].
Proof.
  intros w.
  destruct (agent Sample.invention w Sample.cold) as [[r|e] s'] eqn:Hrun;
    [|vm_compute in Hrun; discriminate Hrun].
  exists r, s'. split; [reflexivity|].
  destruct (agent_asks_for_one_analysis Sample.no_numeric_strings _ _ _ _ _ Hrun)
    as [Hnone|(ebayResult & s1 & Hphase1 & _ & _ & _ & Hasked)].
  - vm_compute in Hrun. injection Hrun as _ <-. discriminate Hnone.
  - pose proof (eq_trans (eq_sym Hphase1) (shop_phase1 Sample.sound_answer)) as Hsame.
    injection Hsame as -> _. exact Hasked.
Defined.

Lemma unreadable_analysis_falls_back_witness :
  let w := Sample.shop Sample2.null_answer in
  Edge.unreadable Null /\
  exists r s',
    agent Sample.invention w Sample.cold = (Return r, s') /\
    findings r = ebayProductToFinding <$> Sample.two_listings /\
    is_novel r = Boolean false /\ confidence r = lit 0.3 /\
    truth_scores r = scores 0.6 0.5 0.4 0.5.
Proof.
  intros w.
  assert (Hbad : Edge.unreadable Null) by (left; reflexivity).
  split; [exact Hbad|].
  apply (unreadable_analysis_falls_back Sample.no_numeric_strings Sample.invention w
           Sample.cold _ _ Null (shop_configured _) (shop_phase1 _));
    [reflexivity | discriminate | reflexivity | exact Hbad].
Defined.

Lemma verdict_without_analyses_adopted_witness :
  let w := Sample.shop Sample2.verdict_only in
  exists r s',
    agent Sample.invention w Sample.cold = (Return r, s') /\
    findings r = ebayProductToFinding <$> Sample.two_listings /\
    is_novel r = Boolean true /\ confidence r = lit 0.9 /\
    summary r = Str "Nothing alike is on sale." /\
    truth_scores r = Undefined.
Proof.
  intros w.
  apply (verdict_without_analyses_adopted Sample.no_numeric_strings Sample.invention w
           Sample.cold _ _ Sample2.verdict (shop_configured _) (shop_phase1 _));
    [reflexivity | discriminate | reflexivity | discriminate | discriminate
    | left; reflexivity].
Defined.

Lemma update_follows_last_analysis_witness :
  let finding := ebayProductToFinding (Sample.listing "110" "Solar charger case") in
  exists entries u,
    analysis_entries Sample2.twice_analysed = Return entries /\
    update_finding (new_Map entries) finding = Return u /\
    similarity_score u = lit 0.6.
Proof.
  intros finding.
  destruct (analysis_entries Sample2.twice_analysed) as [entries|e] eqn:Hentries;
    [|vm_compute in Hentries; discriminate Hentries].
  destruct (update_finding (new_Map entries) finding) as [u|e] eqn:Hu.
  2:{ vm_compute in Hentries. injection Hentries as <-.
      vm_compute in Hu. discriminate Hu. }
  exists entries, u. split; [reflexivity|]. split; [exact Hu|].
  destruct (update_follows_last_analysis Sample2.twice_analysed _ entries finding u
              eq_refl Hentries Hu) as [Hlast _].
  destruct (Hlast [Sample.product_analysis "110" 0.2; Sample.product_analysis "220" 0.9]
              (Sample.product_analysis "110" 0.6) [] eq_refl eq_refl (List.Forall_nil _))
    as [Hscore _].
  exact Hscore.
Defined.

Lemma location_of_state_alone_witness :
  Browse.itemLocation Sample2.from_ohio
    = Some {| Browse.city := ""; Browse.stateOrProvince := "Ohio"; Browse.country := "" |} /\
  location (metadata (ebayProductToFinding Sample2.from_ohio)) = Some "Ohio".
Proof.
  split; [reflexivity|].
  destruct (location_of_state_alone Sample2.from_ohio) as [Hstate _].
  exact (Hstate _ eq_refl eq_refl eq_refl).
Defined.

Lemma Array_sort_of_descending_witness :
  Forall (fun f => numeric (similarity_score f)) Sample2.ranked /\
  descending Sample2.ranked /\
  Array_sort (by_similarity Sample.no_numeric_strings) Sample2.ranked = Return Sample2.ranked.
Proof.
  assert (Hnum : Forall (fun f => numeric (similarity_score f)) Sample2.ranked)
    by (repeat constructor).
  assert (Hdesc : descending Sample2.ranked) by (repeat constructor).
  split; [exact Hnum|]. split; [exact Hdesc|].
  exact (Array_sort_of_descending Sample.no_numeric_strings _ Hnum Hdesc).
Defined.

Lemma cleanup_twice_witness :
  1000 <= 6000 /\
  SearchCache.cleanup_expired_cache 6000 Sample.three_rows
  = (inr 2, [Sample.cached "2" "patent:solar" SearchCache.patent None]).
Proof.
  assert (Hlater : 1000 <= 6000) by discriminate.
  split; [exact Hlater|].
  apply (cleanup_twice 1000 6000 Sample.three_rows
           [Sample.cached "2" "patent:solar" SearchCache.patent None;
            Sample.cached "3" "web:solar" SearchCache.web (Some 5000)]
           [Sample.cached "2" "patent:solar" SearchCache.patent None] 1 1 Hlater);
    [reflexivity | reflexivity | discriminate].
Defined.

Lemma getInitialConflictLevel_monotone_witness :
  number_leb (Fin 0.5) (Fin 0.875) = true /\
  (Review.severity (Review.getInitialConflictLevel (Fin 0.5))
   <= Review.severity (Review.getInitialConflictLevel (Fin 0.875)))%nat.
Proof.
  split; [reflexivity|].
  destruct (getInitialConflictLevel_monotone (Fin 0.5) (Fin 0.875)) as [Hup _].
  exact (Hup eq_refl).
Defined.

Lemma initial_counts_witness :
  NoDup (Review.id <$> Review.three_shown) /\
  Review.highConflictCount (Review.initial_states Review.three_shown) = 1%nat /\
  Review.mediumConflictCount (Review.initial_states Review.three_shown) = 1%nat.
Proof.
  assert (Hids : NoDup (Review.id <$> Review.three_shown))
    by (apply (bool_decide_unpack _); vm_compute; exact I).
  assert (Hplain : Forall (fun f => Review.id f <> "__proto__") Review.three_shown)
    by (repeat constructor; discriminate).
  split; [exact Hids|].
  destruct (initial_counts Review.three_shown) as [Hcounts _].
  split.
  - exact (Hcounts Hids Hplain Review.high).
  - exact (Hcounts Hids Hplain Review.medium).
Defined.

End FurtherSamples.
